(** * sciplayer-api: the SQLite persistence engine and its request adapter

    A shallow embedding of [internal/store] (the [Store] interface, the
    [Playlist] value and [ErrDeviceNotFound]), of [internal/store/sqlite]
    (the engine: [New], [migrate], [CreateDevice], [AddPlaylist],
    [ListPlaylists], [Close]) and of the part of [internal/api] that
    validates a playlist request before it reaches the engine.

    Conventions of the embedding.
    - The database file is a value of type [database]: the two tables of
      [migrate], each either absent or holding its rows in insertion order
      together with its [sqlite_sequence] counter.
    - [db.SetMaxOpenConns(1)] serialises every statement on one connection,
      so an engine call is a function from the database before the call to
      the database after it.
    - Every call into [database/sql], the driver or the operating system may
      fail.  The environment decides: a [schedule] lists the outcomes of the
      successive calls, and the engine functions live in the monad [Drv]
      that consumes it.  Disk errors, [SQLITE_BUSY], [SQLITE_FULL] (which
      includes the exhaustion of 64-bit rowids) and cancellation of the
      context are all such faults.
    - [CURRENT_TIMESTAMP] is the reading [now] of the wall clock when the
      statement runs, in seconds; SQLite stores it as text
      [YYYY-MM-DD HH:MM:SS], whose order is the order of the readings. *)

From Stdlib Require Import ZArith List String Bool Lia.
From Stdlib Require Import Sorting.Sorted Sorting.Permutation.
Import ListNotations.

Local Open Scope string_scope.
Local Open Scope Z_scope.
Local Open Scope list_scope.

(** ** Errors *)

(** What the SQLite driver can report.  [SqliteFault] is an error injected
    by the environment; the other three are raised by the statements
    themselves. *)
Inductive sqlite_error : Type :=
| SqliteFault (code : nat)
| SqliteNoSuchTable (tbl : string)
| SqliteConstraintUnique
| SqliteConstraintForeignKey.

(** Go [error] values of the program: the three sentinels it compares with
    [errors.Is], driver and operating-system errors, other [errors.New]
    values and the two shapes built with [fmt.Errorf].  [Errorf msg e] is [fmt.Errorf(msg + ": %w", e)];
    [ErrorfRollback r e] is
    [fmt.Errorf("rolling back transaction: %v (original error: %w)", r, e)],
    which wraps [e] only. *)
Inductive error : Type :=
| ErrDeviceNotFound
| ErrNoRows
| ErrTxDone
| ErrDriver (e : sqlite_error)
| ErrOS (code : nat)
| ErrorsNew (msg : string)
| Errorf (msg : string) (wrapped : error)
| ErrorfRollback (rollbackErr : error) (wrapped : error).

Definition sqlite_error_eq_dec (a b : sqlite_error) : {a = b} + {a <> b}.
Proof. decide equality; auto using Nat.eq_dec, string_dec. Defined.

Definition error_eq_dec (a b : error) : {a = b} + {a <> b}.
Proof.
  decide equality; auto using Nat.eq_dec, string_dec, sqlite_error_eq_dec.
Defined.

(** [errors.Is]: the error itself or anything on its [%w] chain. *)
Fixpoint errors_Is (err target : error) : bool :=
  if error_eq_dec err target then true
  else match err with
       | Errorf _ w => errors_Is w target
       | ErrorfRollback _ w => errors_Is w target
       | _ => false
       end.

(** ** The environment: outcomes of driver calls *)

Definition fault : Type := option nat.
Definition schedule : Type := list fault.

Definition Drv (A : Type) : Type := schedule -> A * schedule.

Definition ret {A} (a : A) : Drv A := fun sch => (a, sch).

Definition bind {A B} (c : Drv A) (k : A -> Drv B) : Drv B :=
  fun sch => let (a, sch') := c sch in k a sch'.

Declare Scope drv_scope.
Delimit Scope drv_scope with drv.
Notation "x <- c ;; k" := (bind c (fun x => k))
  (at level 100, c at next level, right associativity) : drv_scope.
Notation "' p <- c ;; k" := (bind c (fun x => let 'p := x in k))
  (at level 100, p pattern, c at next level, right associativity) : drv_scope.
Local Open Scope drv_scope.

(** One call into the driver: the next outcome of the schedule; a schedule
    that has run out reports no more faults. *)
Definition driver_call : Drv fault :=
  fun sch => match sch with
             | [] => (None, [])
             | f :: rest => (f, rest)
             end.

(** No call fails. *)
Definition quiet (sch : schedule) : bool :=
  forallb (fun f => match f with None => true | Some _ => false end) sch.

(** ** The database *)

(** A row of [devices]. *)
Record device_row : Type := mk_device_row {
  dev_id : Z;
  dev_identifier : string;
  dev_created_at : Z
}.

(** A row of [playlists]. *)
Record playlist_row : Type := mk_playlist_row {
  pl_id : Z;
  pl_device_identifier : string;
  pl_name : string;
  pl_url : string;
  pl_created_at : Z
}.

(** A table with an [INTEGER PRIMARY KEY AUTOINCREMENT]: its rows, oldest
    first, and the largest rowid it ever handed out ([sqlite_sequence]). *)
Record table (R : Type) : Type := mk_table {
  rows : list R;
  seq : Z
}.
Arguments mk_table {R} _ _.
Arguments rows {R} _.
Arguments seq {R} _.

Record database : Type := mk_database {
  devices : option (table device_row);
  playlists : option (table playlist_row)
}.

(** A location at which no file exists yet: SQLite opens it as a database
    without tables. *)
Definition empty_database : database :=
  {| devices := None; playlists := None |}.

Definition empty_table {R} : table R := {| rows := []; seq := 0 |}.

Definition max_rowid {R} (rid : R -> Z) (l : list R) : Z :=
  fold_right (fun r m => Z.max (rid r) m) 0 l.

(** The rowid of the next row of an AUTOINCREMENT table: one more than the
    largest rowid the table holds or ever held. *)
Definition new_rowid {R} (rid : R -> Z) (t : table R) : Z :=
  Z.max (max_rowid rid (rows t)) (seq t) + 1.

Definition has_device (deviceID : string) (t : table device_row) : bool :=
  existsb (fun r => String.eqb (dev_identifier r) deviceID) (rows t).

(** ** The SQL statements of the engine *)

(** [CREATE TABLE IF NOT EXISTS devices (...)]. *)
Definition create_devices_table (d : database) : database :=
  match devices d with
  | Some _ => d
  | None => {| devices := Some empty_table; playlists := playlists d |}
  end.

(** [CREATE TABLE IF NOT EXISTS playlists (...)]. *)
Definition create_playlists_table (d : database) : database :=
  match playlists d with
  | Some _ => d
  | None => {| devices := devices d; playlists := Some empty_table |}
  end.

(** [INSERT INTO devices (device_identifier) VALUES (?)
     ON CONFLICT(device_identifier) DO NOTHING]: the database after the
    statement and the number of rows it changed.  The rowid is drawn before
    the UNIQUE index is consulted, so a conflict still advances the
    sequence. *)
Definition insert_device (now : Z) (deviceID : string) (d : database)
  : sqlite_error + database * Z :=
  match devices d with
  | None => inl (SqliteNoSuchTable "devices")
  | Some t =>
      let rid := new_rowid dev_id t in
      if has_device deviceID t then
        inr ({| devices := Some {| rows := rows t; seq := rid |};
                playlists := playlists d |}, 0)
      else
        inr ({| devices :=
                  Some {| rows := rows t ++ [mk_device_row rid deviceID now];
                          seq := rid |};
                playlists := playlists d |}, 1)
  end.

(** [SELECT 1 FROM devices WHERE device_identifier = ?]: whether a row
    comes back. *)
Definition select_device (deviceID : string) (d : database)
  : sqlite_error + bool :=
  match devices d with
  | None => inl (SqliteNoSuchTable "devices")
  | Some t => inr (has_device deviceID t)
  end.

(** [INSERT INTO playlists (device_identifier, name, url) VALUES (?, ?, ?)],
    with the FOREIGN KEY of the schema enforced ([_foreign_keys=on]). *)
Definition insert_playlist (now : Z) (deviceID name url : string)
  (d : database) : sqlite_error + database :=
  match playlists d with
  | None => inl (SqliteNoSuchTable "playlists")
  | Some t =>
      match devices d with
      | None => inl (SqliteNoSuchTable "devices")
      | Some dt =>
          if has_device deviceID dt then
            let rid := new_rowid pl_id t in
            inr {| devices := devices d;
                   playlists :=
                     Some {| rows := rows t ++
                                     [mk_playlist_row rid deviceID name url now];
                             seq := rid |} |}
          else inl SqliteConstraintForeignKey
      end
  end.

(** [ORDER BY created_at ASC, id ASC]. *)
Definition playlist_leb (a b : playlist_row) : bool :=
  (pl_created_at a <? pl_created_at b) ||
  ((pl_created_at a =? pl_created_at b) && (pl_id a <=? pl_id b)).

Fixpoint insert_ordered (a : playlist_row) (l : list playlist_row)
  : list playlist_row :=
  match l with
  | [] => [a]
  | b :: rest =>
      if playlist_leb a b then a :: l else b :: insert_ordered a rest
  end.

Definition order_by_created_at_id (l : list playlist_row)
  : list playlist_row :=
  fold_right insert_ordered [] l.

Definition of_device (deviceID : string) (r : playlist_row) : bool :=
  String.eqb (pl_device_identifier r) deviceID.

(** [SELECT name, url, created_at FROM playlists WHERE device_identifier = ?
     ORDER BY created_at ASC, id ASC]. *)
Definition select_playlists (deviceID : string) (d : database)
  : sqlite_error + list playlist_row :=
  match playlists d with
  | None => inl (SqliteNoSuchTable "playlists")
  | Some t => inr (order_by_created_at_id (filter (of_device deviceID) (rows t)))
  end.

(** ** Package [store] *)

Module store.

(** [type Playlist struct { Name, URL string; CreatedAt time.Time }]. *)
Record Playlist : Type := mk_Playlist {
  Name : string;
  URL : string;
  CreatedAt : Z
}.

(** [type Store interface]: the four methods the adapter calls.  A Go pair
    [(v, err)] is a pair whose error is [None] for [nil]; a [nil] slice is
    [None].  The clock reading [now] stands for the moment of the call. *)
Class Store (S : Type) : Type := {
  CreateDevice : S -> Z -> string -> Drv (S * (bool * option error));
  AddPlaylist : S -> Z -> string -> string -> string -> Drv (S * option error);
  ListPlaylists : S -> string -> Drv (option (list Playlist) * option error);
  Close : S -> Drv (option error)
}.

End store.

(** ** [database/sql] on the single connection *)

(** [db.Exec] and [db.Query]: the driver may fail; otherwise the statement
    runs on the database. *)
Definition run_statement {A} (stmt : sqlite_error + A) : Drv (error + A) :=
  f <- driver_call ;;
  match f with
  | Some code => ret (inl (ErrDriver (SqliteFault code)))
  | None =>
      match stmt with
      | inl e => ret (inl (ErrDriver e))
      | inr a => ret (inr a)
      end
  end.

(** [QueryRow(deviceCheck, id).Scan(new(int))]: [sql.ErrNoRows] when the
    query has no row. *)
Definition scan_device_check (deviceID : string) (d : database)
  : Drv (option error) :=
  r <- run_statement (select_device deviceID d) ;;
  match r with
  | inl e => ret (Some e)
  | inr false => ret (Some ErrNoRows)
  | inr true => ret None
  end.

(** [*sql.Tx].  [tx_base] is the committed database, [tx_work] the database
    as the transaction sees it, [tx_done] is set by [Commit] and
    [Rollback]. *)
Record Tx : Type := mk_Tx {
  tx_base : database;
  tx_work : database;
  tx_done : bool
}.

(** [db.BeginTx(ctx, nil)]. *)
Definition BeginTx (d : database) : Drv (error + Tx) :=
  f <- driver_call ;;
  match f with
  | Some code => ret (inl (ErrDriver (SqliteFault code)))
  | None => ret (inr {| tx_base := d; tx_work := d; tx_done := false |})
  end.

(** [tx.Commit()].  A commit that fails leaves nothing of the transaction:
    the driver issues ROLLBACK before it returns the error. *)
Definition Tx_Commit (tx : Tx) : Drv (Tx * option error) :=
  if tx_done tx then ret (tx, Some ErrTxDone)
  else
    f <- driver_call ;;
    match f with
    | Some code =>
        ret ({| tx_base := tx_base tx; tx_work := tx_base tx; tx_done := true |},
             Some (ErrDriver (SqliteFault code)))
    | None =>
        ret ({| tx_base := tx_work tx; tx_work := tx_work tx; tx_done := true |},
             None)
    end.

(** [tx.Rollback()]: [sql.ErrTxDone] once the transaction is finished. *)
Definition Tx_Rollback (tx : Tx) : Drv (Tx * option error) :=
  if tx_done tx then ret (tx, Some ErrTxDone)
  else
    f <- driver_call ;;
    let tx' := {| tx_base := tx_base tx; tx_work := tx_base tx;
                  tx_done := true |} in
    match f with
    | Some code => ret (tx', Some (ErrDriver (SqliteFault code)))
    | None => ret (tx', None)
    end.

(** [tx.QueryRowContext(ctx, deviceCheck, id).Scan(new(int))]. *)
Definition Tx_scan_device_check (tx : Tx) (deviceID : string)
  : Drv (option error) :=
  scan_device_check deviceID (tx_work tx).

(** [tx.ExecContext(ctx, insertPlaylist, id, name, url)]. *)
Definition Tx_exec_insert_playlist (tx : Tx) (now : Z)
  (deviceID name url : string) : Drv (Tx * option error) :=
  r <- run_statement (insert_playlist now deviceID name url (tx_work tx)) ;;
  match r with
  | inl e => ret (tx, Some e)
  | inr d' =>
      ret ({| tx_base := tx_base tx; tx_work := d'; tx_done := tx_done tx |},
           None)
  end.

(** ** Package [sqlite] *)

Module sqlite.

(** [type Store struct { db *sql.DB }]: the handle and, in this embedding,
    the current content of the database behind it. *)
Record Store : Type := mk_Store {
  db : database
}.

(** [func migrate(db *sql.DB) error]. *)
Definition migrate (d : database) : Drv (database * option error) :=
  r1 <- run_statement (inr (create_devices_table d) : sqlite_error + database) ;;
  match r1 with
  | inl e => ret (d, Some (Errorf "creating devices table" e))
  | inr d1 =>
      r2 <- run_statement
              (inr (create_playlists_table d1) : sqlite_error + database) ;;
      match r2 with
      | inl e => ret (d1, Some (Errorf "creating playlists table" e))
      | inr d2 => ret (d2, None)
      end
  end.

(** [func New(dbPath string)], which returns a [Store] pointer and an
    error, run on the content [d] of the file at [dbPath].  The first
    component of the result is the content of the file afterwards.  Inside the [if] that handles a failed
    [migrate], [err := db.Close()] declares a new [err]; the [return nil,
    err] after it returns that one, which is [nil] there. *)
Definition New (d : database) : Drv (database * (option Store * option error)) :=
  fmk <- driver_call ;;
  match fmk with
  | Some code =>
      ret (d, (None, Some (Errorf "creating database directory" (ErrOS code))))
  | None =>
      fop <- driver_call ;;
      match fop with
      | Some code =>
          ret (d, (None, Some (Errorf "opening sqlite database"
                                 (ErrDriver (SqliteFault code)))))
      | None =>
          ' (d', merr) <- migrate d ;;
          match merr with
          | Some _ =>
              fcl <- driver_call ;;
              match fcl with
              | Some code => ret (d', (None, Some (ErrDriver (SqliteFault code))))
              | None => ret (d', (None, None))
              end
          | None => ret (d', (Some {| db := d' |}, None))
          end
      end
  end.

(** [func (s *Store) Close() error]. *)
Definition Close (s : Store) : Drv (option error) :=
  f <- driver_call ;;
  match f with
  | Some code => ret (Some (ErrDriver (SqliteFault code)))
  | None => ret None
  end.

(** [func (s *Store) CreateDevice(ctx, deviceID) (bool, error)]. *)
Definition CreateDevice (s : Store) (now : Z) (deviceID : string)
  : Drv (Store * (bool * option error)) :=
  r <- run_statement (insert_device now deviceID (db s)) ;;
  match r with
  | inl e => ret (s, (false, Some (Errorf "inserting device" e)))
  | inr (d', affected) =>
      fra <- driver_call ;;
      match fra with
      | Some code =>
          ret ({| db := d' |},
               (false, Some (Errorf "checking insert result"
                               (ErrDriver (SqliteFault code)))))
      | None => ret ({| db := d' |}, (0 <? affected, None))
      end
  end.

(** The statements of [AddPlaylist] between [BeginTx] and the deferred
    function: the transaction as they leave it and the value of [err]. *)
Definition AddPlaylist_body (tx : Tx) (now : Z) (deviceID name playlistURL : string)
  : Drv (Tx * option error) :=
  chk <- Tx_scan_device_check tx deviceID ;;
  match chk with
  | Some e =>
      if errors_Is e ErrNoRows then ret (tx, Some ErrDeviceNotFound)
      else ret (tx, Some (Errorf "checking device existence" e))
  | None =>
      ' (tx1, ins) <- Tx_exec_insert_playlist tx now deviceID name playlistURL ;;
      match ins with
      | Some e => ret (tx1, Some (Errorf "inserting playlist" e))
      | None =>
          ' (tx2, cmt) <- Tx_Commit tx1 ;;
          match cmt with
          | Some e => ret (tx2, Some (Errorf "committing playlist insert" e))
          | None => ret (tx2, None)
          end
      end
  end.

(** [func (s *Store) AddPlaylist(ctx, deviceID, name, playlistURL) (err error)]:
    [BeginTx], the body, then the deferred function, which rolls back when
    [err] is not [nil] and rewrites [err] when the rollback fails with
    anything but [sql.ErrTxDone]. *)
Definition AddPlaylist (s : Store) (now : Z) (deviceID name playlistURL : string)
  : Drv (Store * option error) :=
  b <- BeginTx (db s) ;;
  match b with
  | inl e => ret (s, Some (Errorf "starting transaction" e))
  | inr tx =>
      ' (tx1, err) <- AddPlaylist_body tx now deviceID name playlistURL ;;
      match err with
      | None => ret ({| db := tx_base tx1 |}, None)
      | Some e =>
          ' (tx2, rb) <- Tx_Rollback tx1 ;;
          match rb with
          | Some rollbackErr =>
              if negb (errors_Is rollbackErr ErrTxDone)
              then ret ({| db := tx_base tx2 |},
                        Some (ErrorfRollback rollbackErr e))
              else ret ({| db := tx_base tx2 |}, Some e)
          | None => ret ({| db := tx_base tx2 |}, Some e)
          end
      end
  end.

Definition to_Playlist (r : playlist_row) : store.Playlist :=
  {| store.Name := pl_name r; store.URL := pl_url r;
     store.CreatedAt := pl_created_at r |}.

(** The [for rows.Next()] loop with its [rows.Scan], and [rows.Err()] after
    it.  A [Next] that fails ends the loop and shows up in [rows.Err()]. *)
Fixpoint scan_rows (rs : list playlist_row) (playlists : list store.Playlist)
  : Drv (option (list store.Playlist) * option error) :=
  match rs with
  | [] =>
      f <- driver_call ;;
      match f with
      | Some code =>
          ret (None, Some (Errorf "iterating playlists"
                             (ErrDriver (SqliteFault code))))
      | None => ret (Some playlists, None)
      end
  | r :: rest =>
      fnext <- driver_call ;;
      match fnext with
      | Some code =>
          ret (None, Some (Errorf "iterating playlists"
                             (ErrDriver (SqliteFault code))))
      | None =>
          fscan <- driver_call ;;
          match fscan with
          | Some code =>
              ret (None, Some (Errorf "scanning playlist"
                                 (ErrDriver (SqliteFault code))))
          | None => scan_rows rest (playlists ++ [to_Playlist r])
          end
      end
  end.

(** [func (s *Store) ListPlaylists(ctx, deviceID) ([]store.Playlist, error)]. *)
Definition ListPlaylists (s : Store) (deviceID : string)
  : Drv (option (list store.Playlist) * option error) :=
  chk <- scan_device_check deviceID (db s) ;;
  match chk with
  | Some e =>
      if errors_Is e ErrNoRows then ret (None, Some ErrDeviceNotFound)
      else ret (None, Some (Errorf "checking device existence" e))
  | None =>
      q <- run_statement (select_playlists deviceID (db s)) ;;
      match q with
      | inl e => ret (None, Some (Errorf "fetching playlists" e))
      | inr rs => scan_rows rs []
      end
  end.

#[global] Instance Store_is_store : store.Store Store := {
  store.CreateDevice := CreateDevice;
  store.AddPlaylist := AddPlaylist;
  store.ListPlaylists := ListPlaylists;
  store.Close := Close
}.

End sqlite.

(** ** Package [api]: the playlist request on its way to the engine *)

Module url.

(** The two fields of [net/url.URL] that [validateURL] reads. *)
Record URL : Type := mk_URL {
  Scheme : string;
  Host : string
}.

End url.

Module api.

(** [type playlistRequest struct { Name, URL string }]. *)
Record playlistRequest : Type := mk_playlistRequest {
  Name : string;
  URL : string
}.

(** What a handler writes: the status and either a JSON object (its keys in
    the order [encoding/json] emits them) or the text of [http.Error]. *)
Inductive body : Type :=
| JSON (fields : list (string * string))
| Text (msg : string).

Record response : Type := mk_response {
  status : Z;
  payload : body
}.

Definition StatusCreated : Z := 201.
Definition StatusBadRequest : Z := 400.
Definition StatusNotFound : Z := 404.
Definition StatusInternalServerError : Z := 500.

Definition badRequest (message : string) : response :=
  {| status := StatusBadRequest; payload := JSON [("error", message)] |}.

Definition internalServerError : response :=
  {| status := StatusInternalServerError;
     payload := JSON [("error", "internal server error")] |}.

Section Handlers.

(** [strings.TrimSpace] and [url.Parse] belong to the Go library. *)
Variable TrimSpace : string -> string.
Variable url_Parse : string -> error + url.URL.

Context {S : Type} `{store.Store S}.

(** [func validateURL(raw string) error]. *)
Definition validateURL (raw : string) : option error :=
  match url_Parse raw with
  | inl err => Some err
  | inr parsed =>
      if String.eqb (url.Scheme parsed) "" || String.eqb (url.Host parsed) ""
      then Some (ErrorsNew "url must be absolute")
      else None
  end.

(** [func (a *API) addPlaylist(w, r, deviceID)].  [decoded] is what
    [json.NewDecoder(r.Body).Decode(&req)] produced, [None] when it
    failed. *)
Definition addPlaylist (a : S) (now : Z) (deviceID : string)
  (decoded : option playlistRequest) : Drv (S * response) :=
  match decoded with
  | None => ret (a, badRequest "invalid JSON payload")
  | Some req =>
      let name := TrimSpace (Name req) in
      let u := TrimSpace (URL req) in
      if String.eqb name "" then ret (a, badRequest "name is required")
      else if String.eqb u "" then ret (a, badRequest "url is required")
      else
        match validateURL u with
        | Some _ => ret (a, badRequest "url must be a valid absolute URL")
        | None =>
            ' (a', err) <- store.AddPlaylist a now deviceID name u ;;
            match err with
            | Some e =>
                if errors_Is e ErrDeviceNotFound
                then ret (a', {| status := StatusNotFound;
                                 payload := Text "device not found" |})
                else ret (a', internalServerError)
            | None =>
                ret (a', {| status := StatusCreated;
                            payload := JSON [("deviceId", deviceID);
                                             ("name", name); ("url", u)] |})
            end
        end
  end.

End Handlers.

End api.

(** ** Running the engine *)

(** The value a computation returns under a schedule. *)
Definition run {A} (c : Drv A) (sch : schedule) : A := fst (c sch).

(** The calls of the [Store] interface that touch the database. *)
Inductive call : Type :=
| RegisterDevice (deviceID : string)
| AttachPlaylist (deviceID name url : string)
| ListPlaylists (deviceID : string).

(** The store after one call made at clock reading [now]. *)
Definition perform (c : call) (now : Z) (s : sqlite.Store) : Drv sqlite.Store :=
  match c with
  | RegisterDevice deviceID =>
      ' (s', _) <- sqlite.CreateDevice s now deviceID ;; ret s'
  | AttachPlaylist deviceID name url =>
      ' (s', _) <- sqlite.AddPlaylist s now deviceID name url ;; ret s'
  | ListPlaylists deviceID =>
      _ <- sqlite.ListPlaylists s deviceID ;; ret s
  end.

(** The databases the program can leave at a location: none at first, then
    whatever [New] and the calls on the store make of it, under every
    clock and every schedule of faults. *)
Inductive reachable : database -> Prop :=
| reachable_empty : reachable empty_database
| reachable_New d sch :
    reachable d -> reachable (fst (run (sqlite.New d) sch))
| reachable_perform d c now sch :
    reachable d ->
    reachable (sqlite.db (run (perform c now {| sqlite.db := d |}) sch)).

(** ** Predicates on the database *)

(** Both tables of the schema exist. *)
Definition schema_ready (d : database) : bool :=
  match devices d, playlists d with
  | Some _, Some _ => true
  | _, _ => false
  end.

(** A device row with this identifier exists. *)
Definition registered (deviceID : string) (d : database) : bool :=
  match devices d with
  | Some t => has_device deviceID t
  | None => false
  end.

Definition device_rows (d : database) : list device_row :=
  match devices d with
  | Some t => rows t
  | None => []
  end.

Definition playlist_rows (d : database) : list playlist_row :=
  match playlists d with
  | Some t => rows t
  | None => []
  end.

(** The playlist rows of one device, oldest insertion first. *)
Definition playlists_of (deviceID : string) (d : database) : list playlist_row :=
  filter (of_device deviceID) (playlist_rows d).

(** The device rows that carry one identifier. *)
Definition devices_named (deviceID : string) (d : database) : list device_row :=
  filter (fun r => String.eqb (dev_identifier r) deviceID) (device_rows d).

(** Referential integrity: the owner of every playlist row is a device
    row. *)
Definition foreign_keys_ok (d : database) : bool :=
  forallb (fun r => registered (pl_device_identifier r) d) (playlist_rows d).

(** The order of [ORDER BY created_at ASC, id ASC] as a relation: earlier
    creation time first, smaller rowid first among equal times. *)
Definition created_before (a b : playlist_row) : Prop :=
  pl_created_at a < pl_created_at b
  \/ (pl_created_at a = pl_created_at b /\ pl_id a <= pl_id b).

(** ** Package [strings]: what the router calls, on bytes *)

Module strings.

(** [s] without a leading [prefix], when it has one. *)
Fixpoint strip (prefix s : string) : option string :=
  match prefix, s with
  | EmptyString, _ => Some s
  | String a p, String b t => if Ascii.eqb a b then strip p t else None
  | String _ _, EmptyString => None
  end.

(** [strings.TrimPrefix(s, prefix)]. *)
Definition TrimPrefix (s prefix : string) : string :=
  match strip prefix s with
  | Some t => t
  | None => s
  end.

(** [strings.Split(s, sep)] for a separator of one byte, the only kind the
    program passes: the pieces between the separators, one more than there
    are separators. *)
Fixpoint Split (s : string) (sep : Ascii.ascii) : list string :=
  match s with
  | EmptyString => [EmptyString]
  | String c rest =>
      if Ascii.eqb c sep then EmptyString :: Split rest sep
      else match Split rest sep with
           | [] => [String c EmptyString]
           | piece :: pieces => String c piece :: pieces
           end
  end.

(** The byte of ["/"], 0x2F. *)
Definition slash : Ascii.ascii :=
  Ascii.Ascii true true true true false true false false.

(** [strings.Join(elems, sep)]. *)
Definition Join (elems : list string) (sep : string) : string :=
  String.concat sep elems.

End strings.

(** ** Package [api]: routing and the other handlers *)

Module routes.

(** What the handlers read of an [*http.Request]: the method, [r.URL.Path]
    and the bytes of the body. *)
Record Request : Type := mk_Request {
  Method : string;
  Path : string;
  Body : string
}.

(** [type deviceRequest struct { DeviceID string }]. *)
Record deviceRequest : Type := mk_deviceRequest {
  DeviceID : string
}.

(** [type playlistResponse struct { Name, URL string; CreatedAt time.Time }]. *)
Record playlistResponse : Type := mk_playlistResponse {
  Name : string;
  URL : string;
  CreatedAt : Z
}.

(** The bodies the handlers write: those of [api.body], the object of
    [createDevice] with its boolean, and the array of [listPlaylists]. *)
Inductive content : Type :=
| Simple (b : api.body)
| DeviceObject (deviceId : string) (created : bool)
| PlaylistArray (items : list playlistResponse).

(** A response: the [Allow] header when it is set, the status, the body. *)
Record reply : Type := mk_reply {
  Allow : option string;
  Status : Z;
  Content : content
}.

Definition MethodGet : string := "GET".
Definition MethodPost : string := "POST".
Definition StatusOK : Z := 200.
Definition StatusMethodNotAllowed : Z := 405.

Definition of_response (r : api.response) : reply :=
  {| Allow := None; Status := api.status r; Content := Simple (api.payload r) |}.

(** [http.NotFound(w, r)]. *)
Definition NotFound : reply :=
  {| Allow := None; Status := api.StatusNotFound;
     Content := Simple (api.Text "404 page not found") |}.

(** [func (a *API) methodNotAllowed(w, allowedMethods ...string)]. *)
Definition methodNotAllowed (allowedMethods : list string) : reply :=
  {| Allow := Some (strings.Join allowedMethods ", ");
     Status := StatusMethodNotAllowed;
     Content := Simple (api.JSON [("error", "method not allowed")]) |}.

(** [func (a *API) handleHealthz(w, r)]. *)
Definition handleHealthz (r : Request) : reply :=
  if negb (String.eqb (Method r) MethodGet) then methodNotAllowed [MethodGet]
  else {| Allow := None; Status := StatusOK;
          Content := Simple (api.Text "ok") |}.

Section Handlers.

(** [strings.TrimSpace], [url.Parse] and the two uses of
    [json.NewDecoder(r.Body).Decode] belong to the Go library; a decoder
    yields [None] when [Decode] returns an error. *)
Variable TrimSpace : string -> string.
Variable url_Parse : string -> error + url.URL.
Variable decodeDevice : string -> option deviceRequest.
Variable decodePlaylist : string -> option api.playlistRequest.

Context {S : Type} `{store.Store S}.

(** [func (a *API) createDevice(w, r)]. *)
Definition createDevice (a : S) (now : Z) (r : Request) : Drv (S * reply) :=
  match decodeDevice (Body r) with
  | None => ret (a, of_response (api.badRequest "invalid JSON payload"))
  | Some req =>
      let deviceID := TrimSpace (DeviceID req) in
      if String.eqb deviceID ""
      then ret (a, of_response (api.badRequest "deviceId is required"))
      else
        ' (a', (created, err)) <- store.CreateDevice a now deviceID ;;
        match err with
        | Some _ => ret (a', of_response api.internalServerError)
        | None =>
            ret (a', {| Allow := None;
                        Status := if negb created then StatusOK
                                  else api.StatusCreated;
                        Content := DeviceObject deviceID created |})
        end
  end.

(** [func (a *API) listPlaylists(w, r, deviceID)].  Ranging over a nil
    slice runs no iteration, and [resp] is made non-nil. *)
Definition listPlaylists (a : S) (deviceID : string) : Drv reply :=
  ' (playlists, err) <- store.ListPlaylists a deviceID ;;
  match err with
  | Some e =>
      if errors_Is e ErrDeviceNotFound
      then ret {| Allow := None; Status := api.StatusNotFound;
                  Content := Simple (api.Text "device not found") |}
      else ret (of_response api.internalServerError)
  | None =>
      ret {| Allow := None; Status := StatusOK;
             Content :=
               PlaylistArray
                 (map (fun pl => {| Name := store.Name pl;
                                    URL := store.URL pl;
                                    CreatedAt := store.CreatedAt pl |})
                      (match playlists with Some l => l | None => [] end)) |}
  end.

(** [func (a *API) handlePlaylists(w, r, deviceID)]. *)
Definition handlePlaylists (a : S) (now : Z) (r : Request) (deviceID : string)
  : Drv (S * reply) :=
  if String.eqb (Method r) MethodPost then
    ' (a', resp) <- api.addPlaylist TrimSpace url_Parse a now deviceID
                      (decodePlaylist (Body r)) ;;
    ret (a', of_response resp)
  else if String.eqb (Method r) MethodGet then
    resp <- listPlaylists a deviceID ;; ret (a, resp)
  else ret (a, methodNotAllowed [MethodPost; MethodGet]).

(** [func (a *API) handleDevices(w, r)]. *)
Definition handleDevices (a : S) (now : Z) (r : Request) : Drv (S * reply) :=
  if String.eqb (Method r) MethodPost then createDevice a now r
  else ret (a, methodNotAllowed [MethodPost]).

(** [func (a *API) handleDeviceSubroutes(w, r)]. *)
Definition handleDeviceSubroutes (a : S) (now : Z) (r : Request)
  : Drv (S * reply) :=
  let path := strings.TrimPrefix (Path r) "/devices/" in
  let segments := strings.Split path strings.slash in
  match segments with
  | [] => ret (a, NotFound)
  | deviceID :: others =>
      if String.eqb deviceID "" then ret (a, NotFound)
      else
        match others with
        | [] => ret (a, NotFound)
        | segment :: _ =>
            if String.eqb segment "playlists"
            then handlePlaylists a now r deviceID
            else ret (a, NotFound)
        end
  end.

End Handlers.

End routes.

(** ** Package [main] *)

Module main.

(** [func envOrDefault(key, defaultValue string) string]; [Getenv] is
    [os.Getenv], which reads an unset variable as the empty string. *)
Definition envOrDefault (Getenv : string -> string) (key defaultValue : string)
  : string :=
  let value := Getenv key in
  if negb (String.eqb value "") then value else defaultValue.

(** How [main] leaves its start-up: [logger.Fatalf], or the server
    listening on [addr] with the handler built on [store] (a nil pointer
    when [None]). *)
Inductive outcome : Type :=
| Fatalf (err : error)
| ListenAndServe (addr : string) (store : option sqlite.Store).

(** [func main()] up to [httpServer.ListenAndServe()].  [file] gives the
    content of the database file that a path names when [main] starts; the
    first component of the result is what [sqlite.New] leaves in the file
    that [dbPath] names. *)
Definition main (Getenv : string -> string) (file : string -> database)
  : Drv (database * outcome) :=
  let dbPath := envOrDefault Getenv "SCIPLAYER_DB_PATH" "data/sciplayer.db" in
  let addr := envOrDefault Getenv "SCIPLAYER_HTTP_ADDR" ":8090" in
  ' (d', (store, err)) <- sqlite.New (file dbPath) ;;
  match err with
  | Some e => ret (d', Fatalf e)
  | None => ret (d', ListenAndServe addr store)
  end.

End main.

(** ** More predicates on the database *)

(** Rowids grow along the insertion order, start above zero and stay at or
    below the table's sequence. *)
Definition rowids_ascend {R} (rid : R -> Z) (t : option (table R)) : Prop :=
  match t with
  | None => True
  | Some t =>
      StronglySorted Z.lt (map rid (rows t))
      /\ Forall (fun r => 0 < rid r <= seq t) (rows t)
  end.

(** The device identifier a call names. *)
Definition call_device (c : call) : string :=
  match c with
  | RegisterDevice deviceID => deviceID
  | AttachPlaylist deviceID _ _ => deviceID
  | ListPlaylists deviceID => deviceID
  end.

(** The string holds no ["/"] byte. *)
Fixpoint no_slash (s : string) : bool :=
  match s with
  | EmptyString => true
  | String c rest => negb (Ascii.eqb c strings.slash) && no_slash rest
  end.

(** Empty, or beginning with ["/"]: what may follow a path segment. *)
Definition segment_end (tail : string) : Prop :=
  tail = EmptyString \/ exists t, tail = String strings.slash t.

(** ** Stores used to instantiate the theorems *)

(** A freshly opened store in which ["device-123"] was registered at clock
    reading 10. *)
Definition demo_store : sqlite.Store :=
  {| sqlite.db :=
       {| devices := Some {| rows := [mk_device_row 1 "device-123" 10];
                             seq := 1 |};
          playlists := Some empty_table |} |}.

(** The store of a location just opened for the first time. *)
Definition fresh_store : sqlite.Store :=
  {| sqlite.db := {| devices := Some empty_table;
                     playlists := Some empty_table |} |}.

(** The database after opening a new location, registering ["device-123"]
    and attaching one playlist to it, with no fault on the way. *)
Definition demo_history : database :=
  sqlite.db
    (run (perform (AttachPlaylist "device-123" "My playlist"
                     "https://example.com/channel.m3u8") 20
            {| sqlite.db :=
                 sqlite.db
                   (run (perform (RegisterDevice "device-123") 10
                           {| sqlite.db :=
                                fst (run (sqlite.New empty_database) []) |})
                        []) |})
         []).

(** [demo_store] after two playlists were attached to ["device-123"] while
    the clock stepped back: first at reading 300, then at reading 200. *)
Definition demo_unsorted_store : sqlite.Store :=
  fst (run (sqlite.AddPlaylist
              (fst (run (sqlite.AddPlaylist demo_store 300 "device-123"
                           "E1" "https://example.com/e1.m3u8") []))
              200 "device-123" "E2" "https://example.com/e2.m3u8") []).

(** * Theorems *)

(** ** The environment *)

Lemma quiet_driver_call sch :
  quiet sch = true ->
  exists sch', driver_call sch = (None, sch') /\ quiet sch' = true.
Proof.
  destruct sch as [|[code|] rest]; simpl; intros Hq.
  - exists []. auto.
  - discriminate.
  - exists rest. auto.
Qed.

Lemma quiet_run_statement {A} (stmt : sqlite_error + A) sch :
  quiet sch = true ->
  exists sch',
    run_statement stmt sch =
      (match stmt with inl e => inl (ErrDriver e) | inr a => inr a end, sch')
    /\ quiet sch' = true.
Proof.
  intros Hq. destruct (quiet_driver_call sch Hq) as (sch' & Hc & Hq').
  exists sch'. unfold run_statement, bind. rewrite Hc.
  destruct stmt; auto.
Qed.

Lemma quiet_firstn n sch : quiet sch = true -> quiet (firstn n sch) = true.
Proof.
  revert sch. induction n as [|n IH]; intros [|f rest]; simpl; auto.
  destruct f; simpl; try discriminate. apply IH.
Qed.

(** ** Devices and their rows *)

Lemma schema_ready_tables d :
  schema_ready d = true ->
  exists dt pt, devices d = Some dt /\ playlists d = Some pt.
Proof.
  unfold schema_ready. destruct (devices d) as [dt|], (playlists d) as [pt|];
    try discriminate.
  intros _. exists dt, pt. auto.
Qed.

Lemma registered_devices d deviceID :
  registered deviceID d = true ->
  exists dt, devices d = Some dt /\ has_device deviceID dt = true.
Proof.
  unfold registered. destruct (devices d) as [dt|]; try discriminate.
  intros Hd. exists dt. auto.
Qed.

(** Under referential integrity an unregistered identifier owns no row. *)
Lemma unregistered_owns_nothing d deviceID :
  foreign_keys_ok d = true -> registered deviceID d = false ->
  playlists_of deviceID d = [].
Proof.
  unfold foreign_keys_ok, playlists_of. intros Hfk Hreg.
  induction (playlist_rows d) as [|r rest IH]; simpl in *; auto.
  apply andb_true_iff in Hfk. destruct Hfk as [Hr Hrest].
  unfold of_device at 1.
  destruct (String.eqb_spec (pl_device_identifier r) deviceID) as [E|E].
  - rewrite E, Hreg in Hr. discriminate.
  - auto.
Qed.

Lemma registered_select_device deviceID d :
  registered deviceID d =
  match select_device deviceID d with inr found => found | inl _ => false end.
Proof.
  unfold select_device, registered. destruct (devices d); reflexivity.
Qed.

Lemma select_device_ready deviceID d :
  schema_ready d = true ->
  select_device deviceID d = inr (registered deviceID d).
Proof.
  intros Hr. destruct (schema_ready_tables d Hr) as (dt & pt & Hd & _).
  unfold select_device, registered. rewrite Hd. reflexivity.
Qed.

(** ** [AddPlaylist] *)

(** Consume the next outcome of the schedule, whatever it is. *)
Ltac next_call :=
  match goal with
  | |- context [driver_call ?sch] =>
      is_var sch; destruct sch as [|[?|] ?]; cbn
  end.

Ltac unfold_AddPlaylist :=
  unfold run, sqlite.AddPlaylist, sqlite.AddPlaylist_body, BeginTx,
    Tx_scan_device_check, scan_device_check, Tx_exec_insert_playlist,
    Tx_Commit, Tx_Rollback, run_statement, bind, ret;
  cbn [tx_done tx_work tx_base sqlite.db].

(** A call either fails and hands back the store it was given, or succeeds
    on a registered device with the database the INSERT produced. *)
Lemma AddPlaylist_outcomes s now deviceID name url sch :
  (exists e, run (sqlite.AddPlaylist s now deviceID name url) sch = (s, Some e))
  \/ (exists d',
        insert_playlist now deviceID name url (sqlite.db s) = inr d'
        /\ registered deviceID (sqlite.db s) = true
        /\ run (sqlite.AddPlaylist s now deviceID name url) sch
           = ({| sqlite.db := d' |}, None)).
Proof.
  destruct s as [d]. cbn [sqlite.db].
  rewrite registered_select_device. unfold_AddPlaylist.
  destruct (select_device deviceID d) as [e|[|]] eqn:Hsel;
    destruct (insert_playlist now deviceID name url d) as [e'|d'] eqn:Hins.
  all: repeat (first [next_call | rewrite Hsel | rewrite Hins]; cbn); eauto.
Qed.

(** Whenever [AddPlaylist] reports an error, the store is the one it was
    called on. *)
Lemma AddPlaylist_failure_leaves_store s now deviceID name url sch :
  snd (run (sqlite.AddPlaylist s now deviceID name url) sch) <> None ->
  fst (run (sqlite.AddPlaylist s now deviceID name url) sch) = s.
Proof.
  destruct (AddPlaylist_outcomes s now deviceID name url sch)
    as [(e & He) | (d' & _ & _ & He)]; rewrite He; cbn; congruence.
Qed.

(** C1. For a device identifier that is not registered, [AddPlaylist] fails
    and returns the store unchanged, under every schedule of faults; when
    [BeginTx] and the existence query get through, the error is
    [ErrDeviceNotFound] (exactly that value when nothing fails, wrapped by
    the rollback message when only the rollback fails); the identifier owns
    no playlist row afterwards. *)
Theorem AddPlaylist_unregistered_device
  (s : sqlite.Store) (now : Z) (deviceID name url : string) (sch : schedule) :
  schema_ready (sqlite.db s) = true ->
  foreign_keys_ok (sqlite.db s) = true ->
  registered deviceID (sqlite.db s) = false ->
  exists e,
    run (sqlite.AddPlaylist s now deviceID name url) sch = (s, Some e)
    /\ (quiet (firstn 2 sch) = true -> errors_Is e ErrDeviceNotFound = true)
    /\ (quiet sch = true -> e = ErrDeviceNotFound)
    /\ playlists_of deviceID
         (sqlite.db (fst (run (sqlite.AddPlaylist s now deviceID name url) sch)))
       = [].
Proof.
  intros Hready Hfk Hreg.
  pose proof (unregistered_owns_nothing _ _ Hfk Hreg) as Hnone.
  pose proof (select_device_ready deviceID _ Hready) as Hsel.
  rewrite Hreg in Hsel. destruct s as [d]. cbn [sqlite.db] in *.
  unfold_AddPlaylist.
  repeat (first [next_call | rewrite Hsel]; cbn).
  all: eexists; split; [reflexivity|]; cbn.
  all: repeat split; intros; try discriminate; auto.
Qed.

Lemma AddPlaylist_unregistered_device_witness :
  schema_ready (sqlite.db demo_store) = true
  /\ foreign_keys_ok (sqlite.db demo_store) = true
  /\ registered "device-999" (sqlite.db demo_store) = false
  /\ exists e,
       run (sqlite.AddPlaylist demo_store 20 "device-999" "My playlist"
              "https://example.com/channel.m3u8") [] = (demo_store, Some e)
       /\ e = ErrDeviceNotFound.
Proof.
  repeat split.
  destruct (AddPlaylist_unregistered_device demo_store 20 "device-999"
              "My playlist" "https://example.com/channel.m3u8" [])
    as (e & Hrun & _ & Hexact & _); try reflexivity.
  exists e. split; [exact Hrun | apply Hexact; reflexivity].
Defined.

(** C6. On a registered device, a fault at the INSERT or at the COMMIT
    (after [BeginTx] and the existence query succeeded) makes [AddPlaylist]
    fail with an error other than [ErrDeviceNotFound] and return the store
    it was called on: no playlist row is kept. *)
Theorem AddPlaylist_fault_before_commit
  (s : sqlite.Store) (now : Z) (deviceID name url : string)
  (code : nat) (rest sch : schedule) :
  schema_ready (sqlite.db s) = true ->
  registered deviceID (sqlite.db s) = true ->
  sch = None :: None :: Some code :: rest
  \/ sch = None :: None :: None :: Some code :: rest ->
  exists e,
    run (sqlite.AddPlaylist s now deviceID name url) sch = (s, Some e)
    /\ errors_Is e ErrDeviceNotFound = false
    /\ playlist_rows
         (sqlite.db (fst (run (sqlite.AddPlaylist s now deviceID name url) sch)))
       = playlist_rows (sqlite.db s).
Proof.
  intros Hready Hreg Hsch.
  pose proof (select_device_ready deviceID _ Hready) as Hsel.
  rewrite Hreg in Hsel.
  destruct (schema_ready_tables _ Hready) as (dt & pt & Hd & Hp).
  destruct (registered_devices _ _ Hreg) as (dt' & Hd' & Hhas).
  rewrite Hd in Hd'. injection Hd' as <-.
  assert (Hins : exists d', insert_playlist now deviceID name url (sqlite.db s)
                            = inr d').
  { unfold insert_playlist. rewrite Hp, Hd, Hhas. eauto. }
  destruct Hins as (d' & Hins).
  destruct s as [d]. cbn [sqlite.db] in *.
  destruct Hsch as [-> | ->]; unfold_AddPlaylist; cbn;
    rewrite Hsel; cbn; rewrite ?Hins; cbn;
    repeat (next_call; cbn);
    eexists; (split; [reflexivity|]); cbn; auto.
Qed.

Lemma AddPlaylist_fault_before_commit_witness :
  schema_ready (sqlite.db demo_store) = true
  /\ registered "device-123" (sqlite.db demo_store) = true
  /\ exists e,
       run (sqlite.AddPlaylist demo_store 20 "device-123" "My playlist"
              "https://example.com/channel.m3u8")
           [None; None; None; Some 10%nat] = (demo_store, Some e).
Proof.
  repeat split.
  destruct (AddPlaylist_fault_before_commit demo_store 20 "device-123"
              "My playlist" "https://example.com/channel.m3u8" 10%nat []
              [None; None; None; Some 10%nat])
    as (e & Hrun & _); try reflexivity.
  - right. reflexivity.
  - exists e. exact Hrun.
Defined.

(** ** [ORDER BY created_at ASC, id ASC] *)

Lemma playlist_leb_spec a b :
  playlist_leb a b = true <-> created_before a b.
Proof.
  unfold playlist_leb, created_before.
  rewrite orb_true_iff, andb_true_iff, Z.ltb_lt, Z.eqb_eq, Z.leb_le.
  tauto.
Qed.

Lemma playlist_leb_total a b :
  playlist_leb a b = false -> created_before b a.
Proof.
  unfold playlist_leb, created_before. intros Hf.
  apply orb_false_iff in Hf. destruct Hf as [Hlt Hrest].
  apply Z.ltb_ge in Hlt.
  apply andb_false_iff in Hrest. destruct Hrest as [Hne | Hid].
  - apply Z.eqb_neq in Hne. lia.
  - apply Z.leb_gt in Hid. lia.
Qed.

Lemma created_before_trans a b c :
  created_before a b -> created_before b c -> created_before a c.
Proof. unfold created_before. lia. Qed.

Lemma insert_ordered_perm a l : Permutation (insert_ordered a l) (a :: l).
Proof.
  induction l as [|b rest IH]; simpl.
  - apply Permutation_refl.
  - destruct (playlist_leb a b).
    + apply Permutation_refl.
    + eapply perm_trans; [apply perm_skip, IH | apply perm_swap].
Qed.

Lemma order_by_perm l : Permutation (order_by_created_at_id l) l.
Proof.
  induction l as [|a rest IH]; simpl.
  - apply perm_nil.
  - eapply perm_trans; [apply insert_ordered_perm | apply perm_skip, IH].
Qed.

Lemma insert_ordered_sorted a l :
  StronglySorted created_before l ->
  StronglySorted created_before (insert_ordered a l).
Proof.
  induction 1 as [|b rest Hrest IH Hb]; simpl.
  - repeat constructor.
  - destruct (playlist_leb a b) eqn:Hab.
    + apply playlist_leb_spec in Hab.
      constructor; [constructor; assumption|].
      constructor; [assumption|].
      eapply Forall_impl; [|exact Hb].
      intros c Hbc. eapply created_before_trans; eassumption.
    + apply playlist_leb_total in Hab.
      constructor; [assumption|].
      eapply Permutation_Forall;
        [apply Permutation_sym, insert_ordered_perm|].
      constructor; assumption.
Qed.

Lemma order_by_sorted l :
  StronglySorted created_before (order_by_created_at_id l).
Proof.
  induction l as [|a rest IH]; simpl.
  - constructor.
  - apply insert_ordered_sorted, IH.
Qed.

(** A list that is already in order comes back as it is. *)
Lemma order_by_of_sorted l :
  StronglySorted created_before l -> order_by_created_at_id l = l.
Proof.
  induction 1 as [|a rest Hrest IH Ha]; simpl; auto.
  rewrite IH. destruct rest as [|b rest']; simpl; auto.
  apply Forall_inv in Ha. apply playlist_leb_spec in Ha. rewrite Ha. auto.
Qed.

(** ** [ListPlaylists] *)

Lemma scan_rows_quiet rs acc sch :
  quiet sch = true ->
  run (sqlite.scan_rows rs acc) sch
  = (Some (acc ++ map sqlite.to_Playlist rs), None).
Proof.
  revert acc sch. induction rs as [|r rest IH]; intros acc sch Hq.
  - unfold run. simpl. unfold bind.
    destruct (quiet_driver_call sch Hq) as (sch' & -> & _).
    rewrite app_nil_r. reflexivity.
  - unfold run. simpl. unfold bind.
    destruct (quiet_driver_call sch Hq) as (sch1 & -> & Hq1).
    destruct (quiet_driver_call sch1 Hq1) as (sch2 & -> & Hq2).
    specialize (IH (acc ++ [sqlite.to_Playlist r]) sch2 Hq2).
    unfold run in IH. rewrite IH, <- app_assoc. reflexivity.
Qed.

(** With no fault, a registered device gets its rows in the order of the
    query. *)
Lemma ListPlaylists_quiet s deviceID sch :
  schema_ready (sqlite.db s) = true ->
  registered deviceID (sqlite.db s) = true ->
  quiet sch = true ->
  run (sqlite.ListPlaylists s deviceID) sch
  = (Some (map sqlite.to_Playlist
             (order_by_created_at_id (playlists_of deviceID (sqlite.db s)))),
     None).
Proof.
  intros Hready Hreg Hq.
  pose proof (select_device_ready deviceID _ Hready) as Hsel.
  rewrite Hreg in Hsel.
  destruct (schema_ready_tables _ Hready) as (dt & pt & Hd & Hp).
  unfold run, sqlite.ListPlaylists, scan_device_check, bind.
  destruct (quiet_run_statement (select_device deviceID (sqlite.db s)) sch Hq)
    as (sch1 & -> & Hq1).
  rewrite Hsel. cbn.
  destruct (quiet_run_statement
              (select_playlists deviceID (sqlite.db s)) sch1 Hq1)
    as (sch2 & -> & Hq2).
  unfold select_playlists, playlists_of, playlist_rows. rewrite Hp.
  apply (scan_rows_quiet _ [] sch2 Hq2).
Qed.

(** With no fault, an unregistered identifier gets [ErrDeviceNotFound]. *)
Lemma ListPlaylists_unregistered s deviceID sch :
  schema_ready (sqlite.db s) = true ->
  registered deviceID (sqlite.db s) = false ->
  quiet (firstn 1 sch) = true ->
  run (sqlite.ListPlaylists s deviceID) sch = (None, Some ErrDeviceNotFound).
Proof.
  intros Hready Hreg Hq.
  pose proof (select_device_ready deviceID _ Hready) as Hsel.
  rewrite Hreg in Hsel.
  unfold run, sqlite.ListPlaylists, scan_device_check, run_statement, bind.
  destruct sch as [|[code|] rest]; try discriminate; cbn;
    rewrite Hsel; reflexivity.
Qed.

(** C5. With no fault, [ListPlaylists] on a registered device without
    playlists returns an empty, non-nil slice and a nil error; on an
    unregistered identifier it returns a nil slice and [ErrDeviceNotFound];
    the two results differ in every store. *)
Theorem ListPlaylists_empty_is_not_missing
  (s : sqlite.Store) (sch : schedule) :
  schema_ready (sqlite.db s) = true ->
  quiet sch = true ->
  (forall deviceID,
      registered deviceID (sqlite.db s) = true ->
      playlists_of deviceID (sqlite.db s) = [] ->
      run (sqlite.ListPlaylists s deviceID) sch = (Some [], None))
  /\ (forall deviceID,
         registered deviceID (sqlite.db s) = false ->
         run (sqlite.ListPlaylists s deviceID) sch
         = (None, Some ErrDeviceNotFound))
  /\ (forall known unknown,
         registered known (sqlite.db s) = true ->
         playlists_of known (sqlite.db s) = [] ->
         registered unknown (sqlite.db s) = false ->
         run (sqlite.ListPlaylists s known) sch
         <> run (sqlite.ListPlaylists s unknown) sch).
Proof.
  intros Hready Hq.
  assert (Hempty : forall deviceID,
             registered deviceID (sqlite.db s) = true ->
             playlists_of deviceID (sqlite.db s) = [] ->
             run (sqlite.ListPlaylists s deviceID) sch = (Some [], None)).
  { intros deviceID Hreg Hnone.
    rewrite (ListPlaylists_quiet s deviceID sch Hready Hreg Hq), Hnone.
    reflexivity. }
  assert (Hmissing : forall deviceID,
             registered deviceID (sqlite.db s) = false ->
             run (sqlite.ListPlaylists s deviceID) sch
             = (None, Some ErrDeviceNotFound)).
  { intros deviceID Hreg.
    apply ListPlaylists_unregistered; auto using quiet_firstn. }
  repeat split; auto.
  intros known unknown Hk Hnone Hu.
  rewrite (Hempty known Hk Hnone), (Hmissing unknown Hu). discriminate.
Qed.

Lemma ListPlaylists_empty_is_not_missing_witness :
  schema_ready (sqlite.db demo_store) = true
  /\ quiet [None; None; None] = true
  /\ run (sqlite.ListPlaylists demo_store "device-123") [None; None; None]
     = (Some [], None)
  /\ run (sqlite.ListPlaylists demo_store "device-999") [None; None; None]
     = (None, Some ErrDeviceNotFound).
Proof.
  destruct (ListPlaylists_empty_is_not_missing demo_store [None; None; None])
    as (Hempty & Hmissing & _); try reflexivity.
  split; [reflexivity|]. split; [reflexivity|]. split.
  - apply Hempty; reflexivity.
  - apply Hmissing; reflexivity.
Defined.

(** ** What a successful [AddPlaylist] leaves behind *)

Lemma insert_playlist_inr now deviceID name url d d' :
  insert_playlist now deviceID name url d = inr d' ->
  exists pt,
    playlists d = Some pt
    /\ registered deviceID d = true
    /\ d' = {| devices := devices d;
               playlists :=
                 Some {| rows := rows pt ++
                                 [mk_playlist_row (new_rowid pl_id pt)
                                    deviceID name url now];
                         seq := new_rowid pl_id pt |} |}.
Proof.
  unfold insert_playlist, registered.
  destruct (playlists d) as [pt|]; try discriminate.
  destruct (devices d) as [dt|]; try discriminate.
  destruct (has_device deviceID dt) eqn:Hhas; try discriminate.
  intros [= <-]. exists pt. auto.
Qed.

Lemma insert_playlist_ok now deviceID name url d :
  schema_ready d = true -> registered deviceID d = true ->
  exists d', insert_playlist now deviceID name url d = inr d'.
Proof.
  intros Hready Hreg.
  destruct (schema_ready_tables _ Hready) as (dt & pt & Hd & Hp).
  unfold insert_playlist. unfold registered in Hreg.
  rewrite Hp, Hd in *. rewrite Hreg. eauto.
Qed.

Lemma quiet_tail f rest : quiet (f :: rest) = true -> quiet rest = true.
Proof. destruct f; simpl; [discriminate | auto]. Qed.

(** Consume the next outcome of a schedule known to hold no fault. *)
Ltac quiet_call :=
  match goal with
  | Hq : quiet ?sch = true |- context [driver_call ?sch] =>
      destruct sch as [|[?|] ?];
      [ | discriminate Hq | apply quiet_tail in Hq ]; cbn
  end.

(** With no fault, [AddPlaylist] on a registered device commits the
    INSERT. *)
Lemma AddPlaylist_quiet s now deviceID name url sch :
  schema_ready (sqlite.db s) = true ->
  registered deviceID (sqlite.db s) = true ->
  quiet sch = true ->
  exists d',
    insert_playlist now deviceID name url (sqlite.db s) = inr d'
    /\ run (sqlite.AddPlaylist s now deviceID name url) sch
       = ({| sqlite.db := d' |}, None).
Proof.
  intros Hready Hreg Hq.
  pose proof (select_device_ready deviceID _ Hready) as Hsel.
  rewrite Hreg in Hsel.
  destruct (insert_playlist_ok now deviceID name url _ Hready Hreg)
    as (d' & Hins).
  exists d'. split; [exact Hins|].
  destruct s as [d]. cbn [sqlite.db] in *. unfold_AddPlaylist.
  repeat (first [quiet_call | rewrite Hsel | rewrite Hins]; cbn).
  all: reflexivity.
Qed.

Lemma playlists_of_after_insert now deviceID name url d pt :
  playlists d = Some pt ->
  playlists_of deviceID
    {| devices := devices d;
       playlists :=
         Some {| rows := rows pt ++
                         [mk_playlist_row (new_rowid pl_id pt)
                            deviceID name url now];
                 seq := new_rowid pl_id pt |} |}
  = playlists_of deviceID d ++
    [mk_playlist_row (new_rowid pl_id pt) deviceID name url now].
Proof.
  intros Hp. unfold playlists_of, playlist_rows. cbn. rewrite Hp.
  rewrite filter_app. cbn. unfold of_device at 2. cbn.
  rewrite String.eqb_refl. reflexivity.
Qed.

(** C3, as stated, fails: two successful calls that differ only in the
    clock reading return the same value, a nil error, while the rows they
    create carry different creation timestamps; no function of the returned
    value gives the timestamp. *)
Lemma AddPlaylist_result_hides_timestamp :
  let attach now :=
    run (sqlite.AddPlaylist demo_store now "device-123" "My playlist"
           "https://example.com/channel.m3u8") [] in
  snd (attach 100) = None
  /\ snd (attach 200) = None
  /\ map pl_created_at (playlist_rows (sqlite.db (fst (attach 100)))) = [100]
  /\ map pl_created_at (playlist_rows (sqlite.db (fst (attach 200)))) = [200]
  /\ ~ (exists decode : option error -> Z,
           forall now, decode (snd (attach now)) = now).
Proof.
  cbv zeta. repeat split; try reflexivity.
  intros (decode & Hdecode).
  pose proof (Hdecode 100) as H1. pose proof (Hdecode 200) as H2.
  cbn in H1, H2. congruence.
Qed.

(** C3, amended. A successful [AddPlaylist] returns a nil error and nothing
    else; the creation timestamp, the clock reading of the INSERT, is kept
    in the one row the call appends, and [ListPlaylists] on the resulting
    store reports it as [CreatedAt] of that playlist. *)
Theorem AddPlaylist_success_stores_timestamp
  (s : sqlite.Store) (now : Z) (deviceID name url : string) (sch : schedule) :
  snd (run (sqlite.AddPlaylist s now deviceID name url) sch) = None ->
  exists pt,
    playlists (sqlite.db s) = Some pt
    /\ registered deviceID (sqlite.db s) = true
    /\ run (sqlite.AddPlaylist s now deviceID name url) sch
       = ({| sqlite.db :=
               {| devices := devices (sqlite.db s);
                  playlists :=
                    Some {| rows := rows pt ++
                                    [mk_playlist_row (new_rowid pl_id pt)
                                       deviceID name url now];
                            seq := new_rowid pl_id pt |} |} |}, None)
    /\ forall sch',
         quiet sch' = true ->
         exists l,
           run (sqlite.ListPlaylists
                  (fst (run (sqlite.AddPlaylist s now deviceID name url) sch))
                  deviceID) sch' = (Some l, None)
           /\ In {| store.Name := name; store.URL := url;
                    store.CreatedAt := now |} l.
Proof.
  intros Hok.
  destruct (AddPlaylist_outcomes s now deviceID name url sch)
    as [(e & He) | (d' & Hins & Hreg & He)].
  { rewrite He in Hok. discriminate. }
  destruct (insert_playlist_inr _ _ _ _ _ _ Hins) as (pt & Hp & _ & ->).
  exists pt. repeat split; auto.
  intros sch' Hq. rewrite He. cbn [fst].
  destruct (registered_devices _ _ Hreg) as (dt & Hd & Hhas).
  rewrite ListPlaylists_quiet.
  - eexists. split; [reflexivity|].
    cbn [sqlite.db]. rewrite (playlists_of_after_insert _ _ _ _ _ _ Hp).
    change {| store.Name := name; store.URL := url; store.CreatedAt := now |}
      with (sqlite.to_Playlist
              (mk_playlist_row (new_rowid pl_id pt) deviceID name url now)).
    apply in_map.
    eapply Permutation_in; [apply Permutation_sym, order_by_perm|].
    apply in_or_app. right. left. reflexivity.
  - unfold schema_ready. cbn. rewrite Hd. reflexivity.
  - unfold registered. cbn. rewrite Hd. exact Hhas.
  - exact Hq.
Qed.

Lemma AddPlaylist_success_stores_timestamp_witness :
  snd (run (sqlite.AddPlaylist demo_store 20 "device-123" "My playlist"
              "https://example.com/channel.m3u8") []) = None
  /\ exists l,
       run (sqlite.ListPlaylists
              (fst (run (sqlite.AddPlaylist demo_store 20 "device-123"
                           "My playlist" "https://example.com/channel.m3u8")
                        []))
              "device-123") [] = (Some l, None)
       /\ In {| store.Name := "My playlist";
                store.URL := "https://example.com/channel.m3u8";
                store.CreatedAt := 20 |} l.
Proof.
  split; [reflexivity|].
  destruct (AddPlaylist_success_stores_timestamp demo_store 20 "device-123"
              "My playlist" "https://example.com/channel.m3u8" [])
    as (pt & _ & _ & _ & Hlist); [reflexivity|].
  apply Hlist. reflexivity.
Defined.



(** ** [CreateDevice] *)

Ltac unfold_CreateDevice :=
  unfold run, sqlite.CreateDevice, run_statement, insert_device, bind, ret;
  cbn [sqlite.db].

Lemma has_device_named deviceID dt :
  has_device deviceID dt = false ->
  filter (fun r => String.eqb (dev_identifier r) deviceID) (rows dt) = [].
Proof.
  unfold has_device. induction (rows dt) as [|r rest IH]; simpl; auto.
  intros Hno. apply orb_false_iff in Hno. destruct Hno as [-> Hrest]. auto.
Qed.

(** No outcome of [CreateDevice] is a violation of the UNIQUE index. *)
Lemma CreateDevice_no_unique_violation s now deviceID sch e :
  snd (snd (run (sqlite.CreateDevice s now deviceID) sch)) = Some e ->
  errors_Is e (ErrDriver SqliteConstraintUnique) = false.
Proof.
  destruct s as [d]. unfold_CreateDevice.
  destruct (devices d) as [dt|]; [destruct (has_device deviceID dt)|];
    repeat (next_call; cbn); cbn; intros [= <-]; reflexivity.
Qed.

(** With no fault, registering a new identifier appends its row. *)
Lemma CreateDevice_quiet_new s now deviceID dt sch :
  devices (sqlite.db s) = Some dt ->
  has_device deviceID dt = false ->
  quiet sch = true ->
  run (sqlite.CreateDevice s now deviceID) sch
  = ({| sqlite.db :=
          {| devices :=
               Some {| rows := rows dt ++
                               [mk_device_row (new_rowid dev_id dt) deviceID now];
                       seq := new_rowid dev_id dt |};
             playlists := playlists (sqlite.db s) |} |}, (true, None)).
Proof.
  intros Hd Hno Hq. destruct s as [d]. cbn [sqlite.db] in *.
  unfold_CreateDevice. rewrite Hd, Hno.
  repeat (quiet_call; cbn); reflexivity.
Qed.

(** With no fault, registering a known identifier reports [false]. *)
Lemma CreateDevice_quiet_known s now deviceID dt sch :
  devices (sqlite.db s) = Some dt ->
  has_device deviceID dt = true ->
  quiet sch = true ->
  run (sqlite.CreateDevice s now deviceID) sch
  = ({| sqlite.db :=
          {| devices := Some {| rows := rows dt; seq := new_rowid dev_id dt |};
             playlists := playlists (sqlite.db s) |} |}, (false, None)).
Proof.
  intros Hd Hyes Hq. destruct s as [d]. cbn [sqlite.db] in *.
  unfold_CreateDevice. rewrite Hd, Hyes.
  repeat (quiet_call; cbn); reflexivity.
Qed.

Lemma CreateDevice_keeps_quiet s now deviceID sch :
  quiet sch = true ->
  quiet (snd (sqlite.CreateDevice s now deviceID sch)) = true.
Proof.
  intros Hq. destruct s as [d].
  unfold sqlite.CreateDevice, run_statement, insert_device, bind, ret.
  cbn [sqlite.db].
  destruct (devices d) as [dt|]; [destruct (has_device deviceID dt)|];
    repeat (quiet_call; cbn); auto.
Qed.

(** C2. From a store in which the identifier is not registered and with no
    fault, two calls of [CreateDevice] in a row return [(true, nil)] and
    then [(false, nil)], and exactly one device row carries the identifier
    afterwards.  Whatever faults hit the second call, the error it may
    return is never a violation of the UNIQUE index. *)
Theorem CreateDevice_twice
  (s : sqlite.Store) (now1 now2 : Z) (deviceID : string) (sch : schedule) :
  schema_ready (sqlite.db s) = true ->
  registered deviceID (sqlite.db s) = false ->
  quiet sch = true ->
  exists s1 s2,
    run (' (s1, r1) <- sqlite.CreateDevice s now1 deviceID ;;
         ' (s2, r2) <- sqlite.CreateDevice s1 now2 deviceID ;;
         ret (s1, s2, r1, r2)) sch
    = (s1, s2, (true, None), (false, None))
    /\ List.length (devices_named deviceID (sqlite.db s2)) = 1%nat
    /\ forall sch2 e,
         snd (snd (run (sqlite.CreateDevice s1 now2 deviceID) sch2)) = Some e ->
         errors_Is e (ErrDriver SqliteConstraintUnique) = false.
Proof.
  intros Hready Hreg Hq.
  destruct (schema_ready_tables _ Hready) as (dt & pt & Hd & Hp).
  unfold registered in Hreg. rewrite Hd in Hreg.
  pose proof (CreateDevice_quiet_new s now1 deviceID dt sch Hd Hreg Hq) as H1.
  pose proof (CreateDevice_keeps_quiet s now1 deviceID sch Hq) as Hq1.
  unfold run in *. unfold bind at 1.
  destruct (sqlite.CreateDevice s now1 deviceID sch) as [[s1 r1] sch1].
  cbn [fst snd] in *. injection H1 as -> ->.
  set (dt1 := {| rows := rows dt ++
                         [mk_device_row (new_rowid dev_id dt) deviceID now1];
                 seq := new_rowid dev_id dt |}).
  assert (Hhas1 : has_device deviceID dt1 = true).
  { unfold has_device, dt1. cbn. rewrite existsb_app. cbn.
    rewrite String.eqb_refl. apply orb_true_iff. right. reflexivity. }
  match goal with
  | |- context [sqlite.CreateDevice ?st now2 deviceID] => set (s1 := st)
  end.
  pose proof (CreateDevice_quiet_known s1 now2 deviceID dt1 sch1
                eq_refl Hhas1 Hq1) as H2.
  unfold run in H2. unfold bind.
  destruct (sqlite.CreateDevice s1 now2 deviceID sch1) as [[s2 r2] sch2].
  cbn [fst] in H2. injection H2 as -> ->.
  eexists. eexists. split; [reflexivity|]. split.
  - unfold devices_named, device_rows. cbn.
    rewrite filter_app, (has_device_named _ _ Hreg). cbn.
    rewrite String.eqb_refl. reflexivity.
  - intros sch2' e. apply CreateDevice_no_unique_violation.
Qed.

Lemma CreateDevice_twice_witness :
  schema_ready (sqlite.db fresh_store) = true
  /\ registered "device-123" (sqlite.db fresh_store) = false
  /\ quiet [] = true
  /\ exists s1 s2,
       run (' (s1, r1) <- sqlite.CreateDevice fresh_store 10 "device-123" ;;
            ' (s2, r2) <- sqlite.CreateDevice s1 11 "device-123" ;;
            ret (s1, s2, r1, r2)) []
       = (s1, s2, (true, None), (false, None))
       /\ List.length (devices_named "device-123" (sqlite.db s2)) = 1%nat.
Proof.
  repeat (split; [reflexivity|]).
  destruct (CreateDevice_twice fresh_store 10 11 "device-123" [])
    as (s1 & s2 & Hrun & Hone & _); try reflexivity.
  exists s1, s2. split; assumption.
Defined.

(** C9. Registering an identifier that is already registered changes no
    row, whatever the clock and the faults: the rows of [devices], the one
    with this identifier among them with its rowid, identifier and creation
    timestamp, are the same list as before, and the [playlists] table is
    the same.  With no fault the call returns [(false, nil)]. *)
Theorem CreateDevice_again_changes_no_row
  (s : sqlite.Store) (now : Z) (deviceID : string) (sch : schedule) :
  registered deviceID (sqlite.db s) = true ->
  device_rows (sqlite.db (fst (run (sqlite.CreateDevice s now deviceID) sch)))
  = device_rows (sqlite.db s)
  /\ devices_named deviceID
       (sqlite.db (fst (run (sqlite.CreateDevice s now deviceID) sch)))
     = devices_named deviceID (sqlite.db s)
  /\ playlists (sqlite.db (fst (run (sqlite.CreateDevice s now deviceID) sch)))
     = playlists (sqlite.db s)
  /\ (quiet sch = true ->
      snd (run (sqlite.CreateDevice s now deviceID) sch) = (false, None)).
Proof.
  intros Hreg.
  destruct (registered_devices _ _ Hreg) as (dt & Hd & Hhas).
  assert (Hrows :
    device_rows (sqlite.db (fst (run (sqlite.CreateDevice s now deviceID) sch)))
    = device_rows (sqlite.db s)
    /\ playlists (sqlite.db (fst (run (sqlite.CreateDevice s now deviceID) sch)))
       = playlists (sqlite.db s)).
  { destruct s as [d]. cbn [sqlite.db] in *.
    unfold_CreateDevice. rewrite Hd, Hhas.
    repeat (next_call; cbn); unfold device_rows; cbn; rewrite ?Hd; auto. }
  destruct Hrows as [Hdev Hpl]. repeat split; auto.
  - unfold devices_named. rewrite Hdev. reflexivity.
  - intros Hq.
    rewrite (CreateDevice_quiet_known s now deviceID dt sch Hd Hhas Hq).
    reflexivity.
Qed.

Lemma CreateDevice_again_changes_no_row_witness :
  registered "device-123" (sqlite.db demo_store) = true
  /\ device_rows
       (sqlite.db (fst (run (sqlite.CreateDevice demo_store 99 "device-123")
                            [Some 7%nat])))
     = [mk_device_row 1 "device-123" 10].
Proof.
  split; [reflexivity|].
  destruct (CreateDevice_again_changes_no_row demo_store 99 "device-123"
              [Some 7%nat]) as (Hrows & _); [reflexivity|].
  rewrite Hrows. reflexivity.
Defined.

(** ** Schema creation *)

Lemma create_devices_table_ready d :
  devices d <> None -> create_devices_table d = d.
Proof. unfold create_devices_table. destruct (devices d); congruence. Qed.

Lemma create_playlists_table_ready d :
  playlists d <> None -> create_playlists_table d = d.
Proof. unfold create_playlists_table. destruct (playlists d); congruence. Qed.

Lemma create_tables_ready d :
  schema_ready (create_playlists_table (create_devices_table d)) = true.
Proof.
  destruct d as [[dt|] [pt|]]; reflexivity.
Qed.

Lemma create_tables_of_ready d :
  schema_ready d = true ->
  create_playlists_table (create_devices_table d) = d.
Proof.
  intros Hready. destruct (schema_ready_tables _ Hready) as (dt & pt & Hd & Hp).
  rewrite (create_devices_table_ready d) by congruence.
  apply create_playlists_table_ready. congruence.
Qed.

(** The two statements of [migrate] change no row and register nothing. *)
Lemma create_tables_rows d :
  device_rows (create_devices_table d) = device_rows d
  /\ playlist_rows (create_devices_table d) = playlist_rows d
  /\ device_rows (create_playlists_table d) = device_rows d
  /\ playlist_rows (create_playlists_table d) = playlist_rows d.
Proof.
  destruct d as [[dt|] [pt|]]; cbn; auto.
Qed.

Lemma registered_device_rows deviceID d :
  registered deviceID d
  = existsb (fun r => String.eqb (dev_identifier r) deviceID) (device_rows d).
Proof.
  unfold registered, device_rows, has_device. destruct (devices d); reflexivity.
Qed.

(** With no fault, [migrate] runs both statements. *)
Lemma migrate_quiet d sch :
  quiet sch = true ->
  run (sqlite.migrate d) sch
  = (create_playlists_table (create_devices_table d), None)
  /\ quiet (snd (sqlite.migrate d sch)) = true.
Proof.
  intros Hq. unfold run, sqlite.migrate, run_statement, bind, ret.
  repeat (quiet_call; cbn); auto.
Qed.

(** With no fault, [New] returns a store on the migrated database. *)
Lemma New_quiet d sch :
  quiet sch = true ->
  run (sqlite.New d) sch
  = (create_playlists_table (create_devices_table d),
     (Some {| sqlite.db := create_playlists_table (create_devices_table d) |},
      None)).
Proof.
  intros Hq. unfold run, sqlite.New, bind.
  quiet_call.
  - pose proof (migrate_quiet d [] eq_refl) as [Hm _]. unfold run in Hm.
    destruct (sqlite.migrate d []) as [[d' merr] sch']. cbn in Hm.
    injection Hm as -> ->. reflexivity.
  - quiet_call.
    + pose proof (migrate_quiet d [] eq_refl) as [Hm _]. unfold run in Hm.
      destruct (sqlite.migrate d []) as [[d' merr] sch']. cbn in Hm.
      injection Hm as -> ->. reflexivity.
    + pose proof (migrate_quiet d _ Hq) as [Hm _]. unfold run in Hm.
      match goal with
      | |- context [sqlite.migrate d ?r] =>
          destruct (sqlite.migrate d r) as [[d' merr] sch']
      end.
      cbn in Hm. injection Hm as -> ->. reflexivity.
Qed.

(** C8. With no fault, [migrate] on a database that already has both
    tables succeeds and returns it unchanged, schema and rows; on any
    database it yields one on which a second [migrate] changes nothing; and
    [New] on the location that a first [New] left returns the same store
    and leaves the same database as that first [New]. *)
Theorem migrate_idempotent (d : database) (sch sch' : schedule) :
  quiet sch = true ->
  quiet sch' = true ->
  (schema_ready d = true -> run (sqlite.migrate d) sch = (d, None))
  /\ exists d1,
       run (sqlite.migrate d) sch = (d1, None)
       /\ run (sqlite.migrate d1) sch' = (d1, None)
       /\ device_rows d1 = device_rows d
       /\ playlist_rows d1 = playlist_rows d
       /\ run (sqlite.New d) sch = (d1, (Some {| sqlite.db := d1 |}, None))
       /\ run (sqlite.New d1) sch' = (d1, (Some {| sqlite.db := d1 |}, None)).
Proof.
  intros Hq Hq'.
  destruct (migrate_quiet d sch Hq) as [Hm _].
  split.
  - intros Hready. rewrite Hm, (create_tables_of_ready d Hready). reflexivity.
  - exists (create_playlists_table (create_devices_table d)).
    pose proof (create_tables_ready d) as Hready1.
    pose proof (create_tables_of_ready _ Hready1) as Hfix.
    destruct (migrate_quiet
                (create_playlists_table (create_devices_table d)) sch' Hq')
      as [Hm' _].
    destruct (create_tables_rows d) as (Hdd & Hdp & _ & _).
    destruct (create_tables_rows (create_devices_table d))
      as (_ & _ & Hpd & Hpp).
    repeat split.
    + exact Hm.
    + rewrite Hm', Hfix. reflexivity.
    + congruence.
    + congruence.
    + apply New_quiet, Hq.
    + rewrite (New_quiet _ sch' Hq'), Hfix. reflexivity.
Qed.

Lemma migrate_idempotent_witness :
  quiet [] = true
  /\ quiet [None; None] = true
  /\ schema_ready demo_history = true
  /\ run (sqlite.migrate demo_history) [] = (demo_history, None).
Proof.
  repeat (split; [reflexivity|]).
  destruct (migrate_idempotent demo_history [] [None; None])
    as (Hsame & _); [reflexivity | reflexivity | ].
  apply Hsame. reflexivity.
Defined.

(** When [migrate] fails and [db.Close()] succeeds, [New] returns neither a
    store nor an error: the error of [migrate] is shadowed. *)
Remark New_loses_migrate_error :
  run (sqlite.New empty_database) [None; None; Some 14%nat]
  = (empty_database, (None, None)).
Proof. reflexivity. Qed.

(** ** Referential integrity *)

Lemma foreign_keys_ok_ext d d' :
  playlist_rows d' = playlist_rows d ->
  (forall x, registered x d = true -> registered x d' = true) ->
  foreign_keys_ok d = true -> foreign_keys_ok d' = true.
Proof.
  unfold foreign_keys_ok. intros -> Hmono Hfk.
  rewrite forallb_forall in *. auto.
Qed.

Lemma foreign_keys_ok_rows d d' :
  playlist_rows d' = playlist_rows d ->
  device_rows d' = device_rows d ->
  foreign_keys_ok d = true -> foreign_keys_ok d' = true.
Proof.
  intros Hp Hd. apply foreign_keys_ok_ext; auto.
  intros x. rewrite !registered_device_rows, Hd. auto.
Qed.

(** [CreateDevice] keeps every playlist row and every registration. *)
Lemma CreateDevice_frame s now deviceID sch :
  playlist_rows (sqlite.db (fst (run (sqlite.CreateDevice s now deviceID) sch)))
  = playlist_rows (sqlite.db s)
  /\ forall x,
       registered x (sqlite.db s) = true ->
       registered x
         (sqlite.db (fst (run (sqlite.CreateDevice s now deviceID) sch)))
       = true.
Proof.
  destruct s as [d]. unfold_CreateDevice.
  destruct (devices d) as [dt|] eqn:Hd;
    [destruct (has_device deviceID dt) eqn:Hhas|];
    repeat (next_call; cbn); split; auto;
    intros x; unfold registered, has_device; cbn; rewrite ?Hd; auto;
    rewrite existsb_app; intros ->; reflexivity.
Qed.

(** [AddPlaylist] keeps referential integrity: it inserts only after it has
    seen the device. *)
Lemma AddPlaylist_keeps_foreign_keys s now deviceID name url sch :
  foreign_keys_ok (sqlite.db s) = true ->
  foreign_keys_ok
    (sqlite.db (fst (run (sqlite.AddPlaylist s now deviceID name url) sch)))
  = true.
Proof.
  intros Hfk.
  destruct (AddPlaylist_outcomes s now deviceID name url sch)
    as [(e & ->) | (d' & Hins & Hreg & ->)]; cbn [fst sqlite.db]; auto.
  destruct (insert_playlist_inr _ _ _ _ _ _ Hins) as (pt & Hp & _ & ->).
  unfold foreign_keys_ok in *. unfold playlist_rows in *. cbn.
  rewrite Hp in Hfk. rewrite forallb_app. cbn.
  apply andb_true_iff. split.
  - rewrite forallb_forall in *. intros r Hr. specialize (Hfk r Hr).
    unfold registered in *. cbn. exact Hfk.
  - unfold registered in *. cbn. rewrite Hreg. reflexivity.
Qed.

(** [New] changes no row, whether it succeeds or not. *)
Lemma New_rows d sch :
  device_rows (fst (run (sqlite.New d) sch)) = device_rows d
  /\ playlist_rows (fst (run (sqlite.New d) sch)) = playlist_rows d.
Proof.
  destruct (create_tables_rows d) as (Hdd & Hdp & _ & _).
  destruct (create_tables_rows (create_devices_table d)) as (_ & _ & Hpd & Hpp).
  unfold run, sqlite.New, sqlite.migrate, run_statement, bind, ret.
  repeat (next_call; cbn); split; congruence.
Qed.

Lemma perform_keeps_foreign_keys c now s sch :
  foreign_keys_ok (sqlite.db s) = true ->
  foreign_keys_ok (sqlite.db (run (perform c now s) sch)) = true.
Proof.
  intros Hfk. destruct c as [deviceID | deviceID name url | deviceID];
    unfold run, perform, bind.
  - destruct (CreateDevice_frame s now deviceID sch) as [Hp Hreg].
    unfold run in *.
    destruct (sqlite.CreateDevice s now deviceID sch) as [[s' r] sch'].
    cbn in *. eapply foreign_keys_ok_ext; eauto.
  - pose proof (AddPlaylist_keeps_foreign_keys s now deviceID name url sch Hfk)
      as Hstep.
    unfold run in Hstep.
    destruct (sqlite.AddPlaylist s now deviceID name url sch) as [[s' r] sch'].
    exact Hstep.
  - destruct (sqlite.ListPlaylists s deviceID sch) as [r sch']. exact Hfk.
Qed.

Lemma reachable_foreign_keys d : reachable d -> foreign_keys_ok d = true.
Proof.
  induction 1 as [| d sch Hd IH | d c now sch Hd IH].
  - reflexivity.
  - destruct (New_rows d sch) as [Hdev Hpl].
    eapply foreign_keys_ok_rows; eauto.
  - apply (perform_keeps_foreign_keys c now {| sqlite.db := d |} sch IH).
Qed.

Lemma registered_device_row deviceID d :
  registered deviceID d = true ->
  exists dev, In dev (device_rows d) /\ dev_identifier dev = deviceID.
Proof.
  rewrite registered_device_rows, existsb_exists.
  intros (dev & Hin & Heq). apply String.eqb_eq in Heq. eauto.
Qed.

Lemma demo_history_reachable : reachable demo_history.
Proof.
  unfold demo_history.
  apply reachable_perform, reachable_perform, reachable_New, reachable_empty.
Qed.

(** C7. In every database reachable from a new location by [New] and by
    [CreateDevice], [AddPlaylist] and [ListPlaylists] calls, under every
    clock and every schedule of faults, the owning device identifier of
    each playlist row is the identifier of a device row. *)
Theorem referential_integrity_invariant (d : database) :
  reachable d ->
  forall r, In r (playlist_rows d) ->
  exists dev,
    In dev (device_rows d) /\ dev_identifier dev = pl_device_identifier r.
Proof.
  intros Hreach r Hr.
  pose proof (reachable_foreign_keys d Hreach) as Hfk.
  unfold foreign_keys_ok in Hfk. rewrite forallb_forall in Hfk.
  apply registered_device_row, Hfk, Hr.
Qed.

Lemma referential_integrity_invariant_witness :
  reachable demo_history
  /\ exists dev,
       In dev (device_rows demo_history)
       /\ dev_identifier dev = "device-123".
Proof.
  split; [exact demo_history_reachable|].
  apply (referential_integrity_invariant demo_history demo_history_reachable
           (mk_playlist_row 1 "device-123" "My playlist"
              "https://example.com/channel.m3u8" 20)).
  left. reflexivity.
Defined.

(** ** The order of [ListPlaylists] *)

Lemma max_rowid_ge {R} (rid : R -> Z) (l : list R) r :
  In r l -> rid r <= max_rowid rid l.
Proof.
  induction l as [|a rest IH]; simpl; [tauto|].
  intros [-> | Hin]; [lia|]. specialize (IH Hin). lia.
Qed.

Lemma new_rowid_above {R} (rid : R -> Z) (t : table R) r :
  In r (rows t) -> rid r < new_rowid rid t.
Proof.
  intros Hin. pose proof (max_rowid_ge rid _ _ Hin). unfold new_rowid. lia.
Qed.

(** What a successful INSERT into [playlists] does to the database. *)
Lemma insert_playlist_effect now deviceID name url d d' :
  insert_playlist now deviceID name url d = inr d' ->
  schema_ready d' = true
  /\ (forall x, registered x d' = registered x d)
  /\ exists rid,
       (forall r, In r (playlist_rows d) -> pl_id r < rid)
       /\ playlists_of deviceID d'
          = playlists_of deviceID d ++
            [mk_playlist_row rid deviceID name url now].
Proof.
  intros Hins.
  destruct (insert_playlist_inr _ _ _ _ _ _ Hins) as (pt & Hp & Hreg & ->).
  destruct (registered_devices _ _ Hreg) as (dt & Hd & _).
  repeat split.
  - unfold schema_ready. cbn. rewrite Hd. reflexivity.
  - exists (new_rowid pl_id pt). split.
    + unfold playlist_rows. rewrite Hp. apply new_rowid_above.
    + apply playlists_of_after_insert, Hp.
Qed.

Lemma StronglySorted_snoc {A} (R : A -> A -> Prop) l a :
  StronglySorted R l -> Forall (fun b => R b a) l ->
  StronglySorted R (l ++ [a]).
Proof.
  induction 1 as [|b rest Hrest IH Hb]; intros Hall; simpl.
  - repeat constructor.
  - apply Forall_cons_iff in Hall. destruct Hall as [Hba Hall].
    constructor; [auto|].
    apply Forall_app. split; [assumption | repeat constructor; assumption].
Qed.

Lemma insert_ordered_snoc b m a :
  playlist_leb b a = true ->
  insert_ordered b (m ++ [a]) = insert_ordered b m ++ [a].
Proof.
  intros Hba. induction m as [|c m' IH]; simpl.
  - rewrite Hba. reflexivity.
  - destruct (playlist_leb b c); [reflexivity|]. rewrite IH. reflexivity.
Qed.

(** A row that comes after every row of a list, in the order of the query,
    is listed last, whatever the order of the others. *)
Lemma order_by_snoc l a :
  Forall (fun b => created_before b a) l ->
  order_by_created_at_id (l ++ [a]) = order_by_created_at_id l ++ [a].
Proof.
  unfold order_by_created_at_id. induction 1 as [|b rest Hb Hrest IH]; simpl.
  - reflexivity.
  - rewrite IH. apply insert_ordered_snoc, playlist_leb_spec, Hb.
Qed.

(** An INSERT made at a clock reading that is not before those of the
    device's rows puts the new playlist last in the list of the device and
    leaves the order of the others as it was. *)
Lemma insert_playlist_listed_last now deviceID name url d d' :
  insert_playlist now deviceID name url d = inr d' ->
  Forall (fun r => pl_created_at r <= now) (playlists_of deviceID d) ->
  Forall (fun r => pl_created_at r <= now) (playlists_of deviceID d')
  /\ map sqlite.to_Playlist
       (order_by_created_at_id (playlists_of deviceID d'))
     = map sqlite.to_Playlist
         (order_by_created_at_id (playlists_of deviceID d)) ++
       [{| store.Name := name; store.URL := url; store.CreatedAt := now |}].
Proof.
  intros Hins Hbefore.
  destruct (insert_playlist_effect _ _ _ _ _ _ Hins)
    as (_ & _ & rid & Hrid & ->).
  split.
  - apply Forall_app. split; [assumption|].
    repeat constructor. cbn. lia.
  - rewrite order_by_snoc, map_app; [reflexivity|].
    rewrite Forall_forall in *. intros r Hr.
    specialize (Hbefore r Hr).
    assert (Hin : In r (playlist_rows d)).
    { unfold playlists_of in Hr. apply filter_In in Hr. tauto. }
    specialize (Hrid r Hin). unfold created_before. cbn. lia.
Qed.

Lemma AddPlaylist_keeps_quiet s now deviceID name url sch :
  quiet sch = true ->
  quiet (snd (sqlite.AddPlaylist s now deviceID name url sch)) = true.
Proof.
  intros Hq. destruct s as [d].
  unfold sqlite.AddPlaylist, sqlite.AddPlaylist_body, BeginTx,
    Tx_scan_device_check, scan_device_check, Tx_exec_insert_playlist,
    Tx_Commit, Tx_Rollback, run_statement, bind, ret.
  cbn [tx_done tx_work tx_base sqlite.db].
  destruct (select_device deviceID d) as [e|[|]] eqn:Hsel;
    destruct (insert_playlist now deviceID name url d) as [e'|d'] eqn:Hins.
  all: repeat (first [quiet_call | rewrite Hsel | rewrite Hins]; cbn); auto.
Qed.

(** One fault-free [AddPlaylist] on a registered device, with the schedule
    it leaves. *)
Lemma AddPlaylist_quiet_step s now deviceID name url sch :
  schema_ready (sqlite.db s) = true ->
  registered deviceID (sqlite.db s) = true ->
  quiet sch = true ->
  exists d' sch',
    sqlite.AddPlaylist s now deviceID name url sch
    = ({| sqlite.db := d' |}, None, sch')
    /\ quiet sch' = true
    /\ insert_playlist now deviceID name url (sqlite.db s) = inr d'
    /\ schema_ready d' = true
    /\ registered deviceID d' = true.
Proof.
  intros Hready Hreg Hq.
  destruct (AddPlaylist_quiet s now deviceID name url sch Hready Hreg Hq)
    as (d' & Hins & Hrun).
  pose proof (AddPlaylist_keeps_quiet s now deviceID name url sch Hq) as Hq'.
  destruct (insert_playlist_effect _ _ _ _ _ _ Hins) as (Hready' & Hsame & _).
  unfold run in Hrun.
  destruct (sqlite.AddPlaylist s now deviceID name url sch) as [res sch'].
  cbn in Hrun, Hq'. subst res.
  exists d', sch'. repeat split; auto.
  rewrite Hsame. exact Hreg.
Qed.

(** C4, as stated, fails: three playlists attached in the order P1, P2, P3
    while the clock reads 300, then 200, then 100 come back as P3, P2,
    P1. *)
Lemma clock_order_beats_attach_order :
  run (' (s1, _) <- sqlite.AddPlaylist demo_store 300 "device-123"
                      "P1" "https://example.com/1.m3u8" ;;
       ' (s2, _) <- sqlite.AddPlaylist s1 200 "device-123"
                      "P2" "https://example.com/2.m3u8" ;;
       ' (s3, _) <- sqlite.AddPlaylist s2 100 "device-123"
                      "P3" "https://example.com/3.m3u8" ;;
       sqlite.ListPlaylists s3 "device-123") []
  = (Some [store.mk_Playlist "P3" "https://example.com/3.m3u8" 100;
           store.mk_Playlist "P2" "https://example.com/2.m3u8" 200;
           store.mk_Playlist "P1" "https://example.com/1.m3u8" 300],
     None).
Proof. reflexivity. Qed.

(** C4, amended. With no fault, [ListPlaylists] on a registered device
    returns all of its playlists and only those, ordered by creation time
    ascending and by rowid ascending among equal times.  When the rows of
    the device already follow that order as inserted, the result is in
    insertion order.  Playlists P1, P2, P3 attached in that order at clock
    readings that do not decrease (equal readings included) and are not
    before those of the device's earlier rows are returned in exactly that
    order, after the earlier ones, which keep the places [ListPlaylists]
    gave them before, whatever the order in which they were attached. *)
Theorem ListPlaylists_order
  (s : sqlite.Store) (deviceID : string) (sch : schedule) :
  schema_ready (sqlite.db s) = true ->
  registered deviceID (sqlite.db s) = true ->
  quiet sch = true ->
  (exists rs,
      run (sqlite.ListPlaylists s deviceID) sch
      = (Some (map sqlite.to_Playlist rs), None)
      /\ Permutation rs (playlists_of deviceID (sqlite.db s))
      /\ StronglySorted created_before rs)
  /\ (StronglySorted created_before (playlists_of deviceID (sqlite.db s)) ->
      run (sqlite.ListPlaylists s deviceID) sch
      = (Some (map sqlite.to_Playlist (playlists_of deviceID (sqlite.db s))),
         None))
  /\ (forall n1 u1 n2 u2 n3 u3 t1 t2 t3,
         Forall (fun r => pl_created_at r <= t1)
           (playlists_of deviceID (sqlite.db s)) ->
         t1 <= t2 -> t2 <= t3 ->
         exists earlier,
           run (sqlite.ListPlaylists s deviceID) sch = (Some earlier, None)
           /\ run (' (s1, _) <- sqlite.AddPlaylist s t1 deviceID n1 u1 ;;
                   ' (s2, _) <- sqlite.AddPlaylist s1 t2 deviceID n2 u2 ;;
                   ' (s3, _) <- sqlite.AddPlaylist s2 t3 deviceID n3 u3 ;;
                   sqlite.ListPlaylists s3 deviceID) sch
              = (Some (earlier ++ [store.mk_Playlist n1 u1 t1;
                                   store.mk_Playlist n2 u2 t2;
                                   store.mk_Playlist n3 u3 t3]),
                 None)).
Proof.
  intros Hready Hreg Hq. split; [|split].
  - exists (order_by_created_at_id (playlists_of deviceID (sqlite.db s))).
    split; [apply ListPlaylists_quiet; assumption|].
    split; [apply order_by_perm | apply order_by_sorted].
  - intros Hsorted.
    rewrite (ListPlaylists_quiet s deviceID sch Hready Hreg Hq).
    rewrite (order_by_of_sorted _ Hsorted). reflexivity.
  - intros n1 u1 n2 u2 n3 u3 t1 t2 t3 Hbefore H12 H23.
    eexists. split; [apply ListPlaylists_quiet; assumption|].
    destruct (AddPlaylist_quiet_step s t1 deviceID n1 u1 sch Hready Hreg Hq)
      as (d1 & sch1 & E1 & Hq1 & Hins1 & Hready1 & Hreg1).
    destruct (insert_playlist_listed_last _ _ _ _ _ _ Hins1 Hbefore)
      as (Hbefore1 & Hmap1).
    destruct (AddPlaylist_quiet_step {| sqlite.db := d1 |} t2 deviceID n2 u2
                sch1 Hready1 Hreg1 Hq1)
      as (d2 & sch2 & E2 & Hq2 & Hins2 & Hready2 & Hreg2).
    assert (Hbefore1' : Forall (fun r => pl_created_at r <= t2)
                          (playlists_of deviceID d1)).
    { eapply Forall_impl; [|exact Hbefore1]. cbn. intros r Hr. lia. }
    destruct (insert_playlist_listed_last _ _ _ _ _ _ Hins2 Hbefore1')
      as (Hbefore2 & Hmap2).
    destruct (AddPlaylist_quiet_step {| sqlite.db := d2 |} t3 deviceID n3 u3
                sch2 Hready2 Hreg2 Hq2)
      as (d3 & sch3 & E3 & Hq3 & Hins3 & Hready3 & Hreg3).
    assert (Hbefore2' : Forall (fun r => pl_created_at r <= t3)
                          (playlists_of deviceID d2)).
    { eapply Forall_impl; [|exact Hbefore2]. cbn. intros r Hr. lia. }
    destruct (insert_playlist_listed_last _ _ _ _ _ _ Hins3 Hbefore2')
      as (_ & Hmap3).
    unfold run, bind. rewrite E1, E2, E3.
    pose proof (ListPlaylists_quiet {| sqlite.db := d3 |} deviceID sch3
                  Hready3 Hreg3 Hq3) as Hlist.
    unfold run in Hlist. rewrite Hlist. cbn [sqlite.db fst] in *.
    rewrite Hmap3, Hmap2, Hmap1, <- !app_assoc.
    reflexivity.
Qed.

Lemma ListPlaylists_order_witness :
  schema_ready (sqlite.db demo_unsorted_store) = true
  /\ registered "device-123" (sqlite.db demo_unsorted_store) = true
  /\ quiet [] = true
  /\ Forall (fun r => pl_created_at r <= 300)
       (playlists_of "device-123" (sqlite.db demo_unsorted_store))
  /\ run (' (s1, _) <- sqlite.AddPlaylist demo_unsorted_store 300
                         "device-123" "P1" "https://example.com/1.m3u8" ;;
          ' (s2, _) <- sqlite.AddPlaylist s1 300 "device-123"
                         "P2" "https://example.com/2.m3u8" ;;
          ' (s3, _) <- sqlite.AddPlaylist s2 301 "device-123"
                         "P3" "https://example.com/3.m3u8" ;;
          sqlite.ListPlaylists s3 "device-123") []
     = (Some [store.mk_Playlist "E2" "https://example.com/e2.m3u8" 200;
              store.mk_Playlist "E1" "https://example.com/e1.m3u8" 300;
              store.mk_Playlist "P1" "https://example.com/1.m3u8" 300;
              store.mk_Playlist "P2" "https://example.com/2.m3u8" 300;
              store.mk_Playlist "P3" "https://example.com/3.m3u8" 301],
        None).
Proof.
  assert (Hearlier : Forall (fun r => pl_created_at r <= 300)
                       (playlists_of "device-123"
                          (sqlite.db demo_unsorted_store))).
  { repeat constructor; cbn; lia. }
  repeat (split; [reflexivity|]). split; [exact Hearlier|].
  destruct (ListPlaylists_order demo_unsorted_store "device-123" [])
    as (_ & _ & Hthree); [reflexivity | reflexivity | reflexivity | ].
  destruct (Hthree "P1" "https://example.com/1.m3u8"
                   "P2" "https://example.com/2.m3u8"
                   "P3" "https://example.com/3.m3u8" 300 300 301 Hearlier)
    as (earlier & Hlist & Hafter); [lia | lia |].
  assert (Hvalue : earlier
                   = [store.mk_Playlist "E2" "https://example.com/e2.m3u8" 200;
                      store.mk_Playlist "E1" "https://example.com/e1.m3u8" 300]).
  { cbv in Hlist. congruence. }
  rewrite Hafter, Hvalue. reflexivity.
Defined.

(** * Further properties of the engine *)

(** ** What [CreateDevice] can do *)

Lemma insert_device_inr now deviceID d d' n :
  insert_device now deviceID d = inr (d', n) ->
  exists dt,
    devices d = Some dt
    /\ playlists d' = playlists d
    /\ ((has_device deviceID dt = true /\ n = 0
         /\ devices d' = Some {| rows := rows dt;
                                 seq := new_rowid dev_id dt |})
        \/ (has_device deviceID dt = false /\ n = 1
            /\ devices d'
               = Some {| rows := rows dt ++
                                 [mk_device_row (new_rowid dev_id dt)
                                    deviceID now];
                         seq := new_rowid dev_id dt |})).
Proof.
  unfold insert_device. destruct (devices d) as [dt|]; [|discriminate].
  destruct (has_device deviceID dt) eqn:Hhas; intros [= <- <-];
    exists dt; cbn; auto 10.
Qed.

(** Either the INSERT did not run and the store is the one given, or it ran
    and the call reports its row count, unless [RowsAffected] failed. *)
Lemma CreateDevice_outcomes s now deviceID sch :
  (exists e, run (sqlite.CreateDevice s now deviceID) sch
             = (s, (false, Some e)))
  \/ (exists d' n,
         insert_device now deviceID (sqlite.db s) = inr (d', n)
         /\ (run (sqlite.CreateDevice s now deviceID) sch
             = ({| sqlite.db := d' |}, (0 <? n, None))
             \/ exists code,
                 run (sqlite.CreateDevice s now deviceID) sch
                 = ({| sqlite.db := d' |},
                    (false, Some (Errorf "checking insert result"
                                    (ErrDriver (SqliteFault code))))))).
Proof.
  destruct s as [d].
  unfold run, sqlite.CreateDevice, run_statement, bind, ret. cbn [sqlite.db].
  destruct (insert_device now deviceID d) as [e|[d' n]] eqn:Hins.
  all: repeat (next_call; cbn); eauto 10.
Qed.

Lemma has_device_app deviceID (t : table device_row) r s' :
  has_device deviceID {| rows := rows t ++ [r]; seq := s' |}
  = has_device deviceID t || String.eqb (dev_identifier r) deviceID.
Proof.
  unfold has_device. cbn. rewrite existsb_app. cbn.
  rewrite orb_false_r. reflexivity.
Qed.

(** X1. Whenever [CreateDevice] returns a nil error, the identifier is
    registered afterwards, the flag tells whether it was new, a new
    identifier got exactly one row (with the clock reading of the call) at
    the end of [devices], a known one left the rows as they were, and
    [playlists] is untouched; this holds under every schedule of faults. *)
Theorem CreateDevice_success
  (s : sqlite.Store) (now : Z) (deviceID : string) (sch : schedule)
  (s' : sqlite.Store) (created : bool) :
  run (sqlite.CreateDevice s now deviceID) sch = (s', (created, None)) ->
  registered deviceID (sqlite.db s') = true
  /\ created = negb (registered deviceID (sqlite.db s))
  /\ playlists (sqlite.db s') = playlists (sqlite.db s)
  /\ (if created
      then exists rid,
          device_rows (sqlite.db s')
          = device_rows (sqlite.db s) ++ [mk_device_row rid deviceID now]
      else device_rows (sqlite.db s') = device_rows (sqlite.db s)).
Proof.
  intros Hrun.
  destruct (CreateDevice_outcomes s now deviceID sch)
    as [(e & He) | (d' & n & Hins & [He | (code & He)])];
    rewrite He in Hrun; try discriminate.
  injection Hrun as <- <-.
  destruct (insert_device_inr _ _ _ _ _ Hins)
    as (dt & Hd & Hp & [(Hhas & -> & Hd') | (Hhas & -> & Hd')]);
    unfold registered, device_rows; cbn [sqlite.db]; rewrite Hd, Hd'.
  - change (has_device deviceID {| rows := rows dt;
                                   seq := new_rowid dev_id dt |})
      with (has_device deviceID dt).
    rewrite Hhas. cbn. repeat split; auto.
  - rewrite has_device_app, Hhas, String.eqb_refl. cbn.
    repeat split; eauto.
Qed.

Lemma CreateDevice_success_witness :
  run (sqlite.CreateDevice demo_store 30 "device-456") []
  = ({| sqlite.db :=
          {| devices :=
               Some {| rows := [mk_device_row 1 "device-123" 10;
                                mk_device_row 2 "device-456" 30];
                       seq := 2 |};
             playlists := Some empty_table |} |}, (true, None))
  /\ registered "device-456"
       (sqlite.db (fst (run (sqlite.CreateDevice demo_store 30 "device-456")
                            []))) = true.
Proof.
  split; [reflexivity|].
  destruct (CreateDevice_success demo_store 30 "device-456" []
              (fst (run (sqlite.CreateDevice demo_store 30 "device-456") []))
              true eq_refl) as (Hreg & _).
  exact Hreg.
Defined.

(** X2. An error from [CreateDevice] does not mean that nothing happened:
    when the INSERT succeeds and [RowsAffected] fails, the call returns
    [(false, err)] and the identifier is registered all the same. *)
Theorem CreateDevice_error_after_insert
  (s : sqlite.Store) (now : Z) (deviceID : string) (code : nat)
  (rest : schedule) :
  devices (sqlite.db s) <> None ->
  exists s',
    run (sqlite.CreateDevice s now deviceID) (None :: Some code :: rest)
    = (s', (false, Some (Errorf "checking insert result"
                           (ErrDriver (SqliteFault code)))))
    /\ registered deviceID (sqlite.db s') = true.
Proof.
  intros Hd. destruct s as [d]. cbn [sqlite.db] in *.
  destruct (devices d) as [dt|] eqn:Hdt; [|congruence].
  unfold run, sqlite.CreateDevice, run_statement, insert_device, bind, ret.
  cbn. rewrite Hdt.
  destruct (has_device deviceID dt) eqn:Hhas; cbn;
    eexists; (split; [reflexivity|]); unfold registered;
    cbn [sqlite.db devices].
  - exact Hhas.
  - rewrite has_device_app, String.eqb_refl. apply orb_true_r.
Qed.

Lemma CreateDevice_error_after_insert_witness :
  devices (sqlite.db fresh_store) <> None
  /\ exists s',
       run (sqlite.CreateDevice fresh_store 10 "device-123")
           [None; Some 5%nat]
       = (s', (false, Some (Errorf "checking insert result"
                              (ErrDriver (SqliteFault 5)))))
       /\ registered "device-123" (sqlite.db s') = true.
Proof.
  assert (Hd : devices (sqlite.db fresh_store) <> None) by discriminate.
  split; [exact Hd|].
  exact (CreateDevice_error_after_insert fresh_store 10 "device-123" 5%nat []
           Hd).
Defined.

(** ** What a call can do to the two tables *)

(** [New] leaves each table as it is or creates it empty. *)
Lemma New_tables d sch :
  (devices (fst (run (sqlite.New d) sch)) = devices d
   \/ (devices d = None
       /\ devices (fst (run (sqlite.New d) sch)) = Some empty_table))
  /\ (playlists (fst (run (sqlite.New d) sch)) = playlists d
      \/ (playlists d = None
          /\ playlists (fst (run (sqlite.New d) sch)) = Some empty_table)).
Proof.
  unfold run, sqlite.New, sqlite.migrate, run_statement, bind, ret.
  destruct d as [[dt|] [pt|]]; repeat (next_call; cbn); auto.
Qed.

(** A call leaves [devices] as it is, advances its sequence, or appends the
    row of a new identifier; it leaves [playlists] as it is or appends the
    row of a playlist whose device is registered. *)
Lemma perform_tables c now s sch :
  (devices (sqlite.db (run (perform c now s) sch)) = devices (sqlite.db s)
   \/ exists dt,
       devices (sqlite.db s) = Some dt
       /\ (devices (sqlite.db (run (perform c now s) sch))
           = Some {| rows := rows dt; seq := new_rowid dev_id dt |}
           \/ exists deviceID,
               c = RegisterDevice deviceID
               /\ has_device deviceID dt = false
               /\ devices (sqlite.db (run (perform c now s) sch))
                  = Some {| rows := rows dt ++
                                    [mk_device_row (new_rowid dev_id dt)
                                       deviceID now];
                            seq := new_rowid dev_id dt |}))
  /\ (playlists (sqlite.db (run (perform c now s) sch))
      = playlists (sqlite.db s)
      \/ exists pt deviceID name url,
          c = AttachPlaylist deviceID name url
          /\ playlists (sqlite.db s) = Some pt
          /\ registered deviceID (sqlite.db s) = true
          /\ playlists (sqlite.db (run (perform c now s) sch))
             = Some {| rows := rows pt ++
                               [mk_playlist_row (new_rowid pl_id pt)
                                  deviceID name url now];
                       seq := new_rowid pl_id pt |}).
Proof.
  destruct c as [deviceID | deviceID name url | deviceID];
    unfold run, perform, bind.
  - destruct (CreateDevice_outcomes s now deviceID sch)
      as [(e & He) | (d' & n & Hins & He)]; unfold run in He.
    + destruct (sqlite.CreateDevice s now deviceID sch) as [[s' r] sch'].
      cbn in He. injection He as -> _. cbn. auto.
    + assert (Hs' : fst (fst (sqlite.CreateDevice s now deviceID sch))
                    = {| sqlite.db := d' |}).
      { destruct He as [He | (code & He)]; rewrite He; reflexivity. }
      destruct (sqlite.CreateDevice s now deviceID sch) as [[s' r] sch'].
      cbn in Hs'. subst s'. cbn [fst sqlite.db ret].
      destruct (insert_device_inr _ _ _ _ _ Hins)
        as (dt & Hd & Hp & [(Hhas & _ & Hd') | (Hhas & _ & Hd')]).
      * split; [right; exists dt; auto | left; exact Hp].
      * split; [right; exists dt; split; [exact Hd|]; right;
                exists deviceID; auto | left; exact Hp].
  - destruct (AddPlaylist_outcomes s now deviceID name url sch)
      as [(e & He) | (d' & Hins & Hreg & He)]; unfold run in He;
      destruct (sqlite.AddPlaylist s now deviceID name url sch)
        as [[s' r] sch']; cbn in He; injection He as -> _; cbn; auto.
    destruct (insert_playlist_inr _ _ _ _ _ _ Hins) as (pt & Hp & _ & ->).
    cbn. split; [left; reflexivity|].
    right. exists pt, deviceID, name, url. auto.
  - destruct (sqlite.ListPlaylists s deviceID sch) as [r sch']. cbn. auto.
Qed.

(** ** Invariants of the reachable databases *)

Lemma has_device_identifiers deviceID dt :
  has_device deviceID dt = false ->
  ~ In deviceID (map dev_identifier (rows dt)).
Proof.
  unfold has_device. intros Hno Hin. apply in_map_iff in Hin.
  destruct Hin as (r & Hr & Hin).
  assert (Hyes : existsb (fun r => String.eqb (dev_identifier r) deviceID)
                   (rows dt) = true).
  { apply existsb_exists. exists r. split; [assumption|].
    rewrite Hr. apply String.eqb_refl. }
  congruence.
Qed.

(** X3. In every reachable database no two device rows carry the same
    identifier. *)
Theorem device_identifiers_unique (d : database) :
  reachable d -> NoDup (map dev_identifier (device_rows d)).
Proof.
  induction 1 as [| d sch Hd IH | d c now sch Hd IH].
  - constructor.
  - destruct (New_rows d sch) as [-> _]. exact IH.
  - destruct (perform_tables c now {| sqlite.db := d |} sch)
      as [[Hsame | (dt & Hdt & [Hbump | (deviceID & _ & Hnew & Happ)])] _];
      cbn [sqlite.db] in *; unfold device_rows in *.
    + rewrite Hsame. exact IH.
    + rewrite Hbump. rewrite Hdt in IH. exact IH.
    + rewrite Happ. rewrite Hdt in IH. cbn. rewrite map_app.
      apply NoDup_app; [exact IH | repeat constructor; simpl; tauto |].
      intros a Ha [<- | []]. cbn in Ha.
      exact (has_device_identifiers _ _ Hnew Ha).
Qed.

Lemma device_identifiers_unique_witness :
  reachable demo_history
  /\ NoDup (map dev_identifier (device_rows demo_history)).
Proof.
  split; [exact demo_history_reachable|].
  exact (device_identifiers_unique demo_history demo_history_reachable).
Defined.

(** X4. No call deletes or rewrites a row: after any call, under any
    faults, each table holds the rows it held, in the same order, followed
    by what the call added, and a call adds at most one row in all. *)
Theorem calls_only_append
  (c : call) (now : Z) (s : sqlite.Store) (sch : schedule) :
  exists new_devices new_playlists,
    device_rows (sqlite.db (run (perform c now s) sch))
    = device_rows (sqlite.db s) ++ new_devices
    /\ playlist_rows (sqlite.db (run (perform c now s) sch))
       = playlist_rows (sqlite.db s) ++ new_playlists
    /\ (List.length new_devices + List.length new_playlists <= 1)%nat.
Proof.
  destruct (perform_tables c now s sch) as [Hdev Hpl].
  unfold device_rows, playlist_rows.
  destruct Hdev as [-> | (dt & Hdt & [-> | (deviceID & Hc & _ & ->)])];
    destruct Hpl as [-> | (pt & D & name & url & Hc' & Hpt & _ & ->)];
    rewrite ?Hdt, ?Hpt; cbn [rows].
  all: try (subst c; discriminate).
  - exists [], []. rewrite !app_nil_r. auto.
  - exists [], [mk_playlist_row (new_rowid pl_id pt) D name url now].
    rewrite app_nil_r. auto.
  - exists [], []. rewrite !app_nil_r. auto.
  - exists [], [mk_playlist_row (new_rowid pl_id pt) D name url now].
    rewrite app_nil_r. auto.
  - exists [mk_device_row (new_rowid dev_id dt) deviceID now], [].
    rewrite app_nil_r. auto.
Qed.

Lemma new_rowid_bounds {R} (rid : R -> Z) (t : table R) :
  0 < new_rowid rid t /\ seq t < new_rowid rid t.
Proof.
  unfold new_rowid.
  assert (0 <= max_rowid rid (rows t)).
  { unfold max_rowid. induction (rows t) as [|r rest IH]; simpl; lia. }
  lia.
Qed.

Lemma rowids_ascend_bump {R} (rid : R -> Z) (t : table R) :
  rowids_ascend rid (Some t) ->
  rowids_ascend rid (Some {| rows := rows t; seq := new_rowid rid t |}).
Proof.
  cbn. intros [Hsorted Hbound]. split; [assumption|].
  destruct (new_rowid_bounds rid t) as [_ Hseq].
  eapply Forall_impl; [|exact Hbound]. cbn. intros r Hr. lia.
Qed.

Lemma rowids_ascend_append {R} (rid : R -> Z) (t : table R) (r : R) :
  rid r = new_rowid rid t ->
  rowids_ascend rid (Some t) ->
  rowids_ascend rid
    (Some {| rows := rows t ++ [r]; seq := new_rowid rid t |}).
Proof.
  cbn. intros Hr [Hsorted Hbound].
  destruct (new_rowid_bounds rid t) as [Hpos Hseq]. split.
  - rewrite map_app. cbn. apply StronglySorted_snoc; [assumption|].
    apply Forall_forall. intros b Hb. apply in_map_iff in Hb.
    destruct Hb as (r' & <- & Hin). rewrite Hr.
    apply new_rowid_above, Hin.
  - apply Forall_app. split.
    + eapply Forall_impl; [|exact Hbound]. cbn. intros r' Hr'. lia.
    + repeat constructor; lia.
Qed.

(** X5. In every reachable database the rowids of each table are positive,
    strictly increasing in the order of insertion (so no two rows share
    one) and never above the table's sequence. *)
Theorem rowids_follow_insertion (d : database) :
  reachable d ->
  rowids_ascend dev_id (devices d) /\ rowids_ascend pl_id (playlists d).
Proof.
  induction 1 as [| d sch Hd [IHd IHp] | d c now sch Hd [IHd IHp]].
  - cbn. auto.
  - destruct (New_tables d sch) as [[-> | [_ ->]] [-> | [_ ->]]];
      repeat split; auto; repeat constructor.
  - destruct (perform_tables c now {| sqlite.db := d |} sch)
      as [Hdev Hpl]; cbn [sqlite.db] in *. split.
    + destruct Hdev as [-> | (dt & Hdt & [-> | (deviceID & _ & _ & ->)])];
        rewrite ?Hdt in IHd; auto using rowids_ascend_bump.
      apply rowids_ascend_append; auto.
    + destruct Hpl as [-> | (pt & D & name & url & _ & Hpt & _ & ->)];
        rewrite ?Hpt in IHp; auto.
      apply rowids_ascend_append; auto.
Qed.

Lemma rowids_follow_insertion_witness :
  reachable demo_history
  /\ rowids_ascend dev_id (devices demo_history)
  /\ rowids_ascend pl_id (playlists demo_history).
Proof.
  split; [exact demo_history_reachable|].
  exact (rowids_follow_insertion demo_history demo_history_reachable).
Defined.

(** ** Errors that name the device *)

(** [AddPlaylist] reports [ErrDeviceNotFound], bare or wrapped by the
    rollback message, only for an identifier that [devices] does not
    hold. *)
Lemma AddPlaylist_not_found_unregistered s now deviceID name url sch e :
  snd (run (sqlite.AddPlaylist s now deviceID name url) sch) = Some e ->
  errors_Is e ErrDeviceNotFound = true ->
  registered deviceID (sqlite.db s) = false.
Proof.
  destruct s as [d]. cbn [sqlite.db].
  rewrite registered_select_device. unfold_AddPlaylist.
  destruct (select_device deviceID d) as [e0|[|]] eqn:Hsel;
    destruct (insert_playlist now deviceID name url d) as [e'|d'] eqn:Hins.
  all: repeat (first [next_call | rewrite Hsel | rewrite Hins]; cbn).
  all: intros [= <-]; cbn; intros His; try discriminate His; auto.
Qed.

(** X6. [AddPlaylist] reports [ErrDeviceNotFound], bare or wrapped by the
    rollback message, exactly when [BeginTx] and the existence query ran
    without a fault and the query found no row: a storage fault is never
    passed off as a missing device, and a missing device is never hidden
    by a later fault of the rollback. *)
Theorem AddPlaylist_not_found_iff
  (s : sqlite.Store) (now : Z) (deviceID name url : string) (sch : schedule) :
  (exists e,
      snd (run (sqlite.AddPlaylist s now deviceID name url) sch) = Some e
      /\ errors_Is e ErrDeviceNotFound = true)
  <-> (quiet (firstn 2 sch) = true
       /\ select_device deviceID (sqlite.db s) = inr false).
Proof.
  destruct s as [d]. cbn [sqlite.db]. unfold_AddPlaylist.
  destruct (select_device deviceID d) as [e0|[|]] eqn:Hsel;
    destruct (insert_playlist now deviceID name url d) as [e'|d'] eqn:Hins.
  all: repeat (first [next_call | rewrite Hsel | rewrite Hins]; cbn).
  all: split;
    [ intros (e & [= <-] & His); cbn in His; try discriminate His; auto
    | intros [Hq Hfound]; try discriminate Hq; try discriminate Hfound;
      eexists; split; reflexivity ].
Qed.

Lemma scan_rows_outcomes rs acc sch :
  run (sqlite.scan_rows rs acc) sch
  = (Some (acc ++ map sqlite.to_Playlist rs), None)
  \/ exists e,
      run (sqlite.scan_rows rs acc) sch = (None, Some e)
      /\ errors_Is e ErrDeviceNotFound = false.
Proof.
  revert acc sch. induction rs as [|r rest IH]; intros acc sch;
    unfold run; simpl; unfold bind.
  - next_call; rewrite ?app_nil_r; eauto.
  - next_call; eauto.
    + unfold bind. cbn. specialize (IH (acc ++ [sqlite.to_Playlist r]) []).
      unfold run in IH. rewrite <- app_assoc in IH. exact IH.
    + unfold bind. next_call; eauto.
      * specialize (IH (acc ++ [sqlite.to_Playlist r]) []).
        unfold run in IH. rewrite <- app_assoc in IH. exact IH.
      * match goal with
        | |- context [sqlite.scan_rows rest _ ?tail] =>
            specialize (IH (acc ++ [sqlite.to_Playlist r]) tail)
        end.
        unfold run in IH. rewrite <- app_assoc in IH. exact IH.
Qed.

(** Under every schedule [ListPlaylists] returns the whole list and a nil
    error, or a nil slice and an error. *)
Lemma ListPlaylists_outcomes s deviceID sch :
  (run (sqlite.ListPlaylists s deviceID) sch
   = (Some (map sqlite.to_Playlist
              (order_by_created_at_id (playlists_of deviceID (sqlite.db s)))),
      None)
   /\ registered deviceID (sqlite.db s) = true)
  \/ exists e,
      run (sqlite.ListPlaylists s deviceID) sch = (None, Some e)
      /\ (errors_Is e ErrDeviceNotFound = true ->
          select_device deviceID (sqlite.db s) = inr false).
Proof.
  rewrite registered_select_device.
  unfold run, sqlite.ListPlaylists, scan_device_check, run_statement, bind.
  destruct (select_device deviceID (sqlite.db s)) as [e0|[|]] eqn:Hsel.
  all: next_call; try (right; eexists; split; [reflexivity|];
                       cbn; intros; (discriminate || reflexivity)).
  all: unfold playlists_of, playlist_rows, select_playlists.
  all: destruct (playlists (sqlite.db s)) as [pt|]; cbn.
  all: try next_call.
  all: try (right; eexists; split; [reflexivity|]; cbn; intros; discriminate).
  all: match goal with
       | |- context [sqlite.scan_rows ?rs [] ?tail] =>
           destruct (scan_rows_outcomes rs [] tail) as [Hok | (e & Herr & Hno)];
           unfold run in *; [rewrite Hok; left; auto
                            | rewrite Herr; right; exists e; split; auto;
                              intros Hyes; congruence]
       end.
Qed.

(** X7. Under every schedule of faults, when [ListPlaylists] returns a
    slice it is the complete list of the device's playlists, one entry per
    row in the order of the query, the error is nil and the device is
    registered; when it returns an error the slice is nil; it never
    returns a nil slice with a nil error; and the error is
    [ErrDeviceNotFound] only if the existence query ran and found no
    row. *)
Theorem ListPlaylists_all_or_error
  (s : sqlite.Store) (deviceID : string) (sch : schedule) :
  (forall l,
      fst (run (sqlite.ListPlaylists s deviceID) sch) = Some l ->
      snd (run (sqlite.ListPlaylists s deviceID) sch) = None
      /\ registered deviceID (sqlite.db s) = true
      /\ l = map sqlite.to_Playlist
               (order_by_created_at_id (playlists_of deviceID (sqlite.db s)))
      /\ List.length l = List.length (playlists_of deviceID (sqlite.db s)))
  /\ (forall e,
         snd (run (sqlite.ListPlaylists s deviceID) sch) = Some e ->
         fst (run (sqlite.ListPlaylists s deviceID) sch) = None
         /\ (errors_Is e ErrDeviceNotFound = true ->
             registered deviceID (sqlite.db s) = false))
  /\ run (sqlite.ListPlaylists s deviceID) sch <> (None, None).
Proof.
  destruct (ListPlaylists_outcomes s deviceID sch)
    as [[Hrun Hreg] | (e & Hrun & Hnot)]; rewrite Hrun; cbn.
  - split; [|split]; try discriminate.
    intros l [= <-]. repeat split; auto.
    rewrite length_map.
    apply Permutation_length, order_by_perm.
  - split; [|split]; try discriminate.
    intros e' [= <-]. split; [reflexivity|].
    intros His. rewrite registered_select_device, (Hnot His). reflexivity.
Qed.

(** ** Devices do not see each other *)

Lemma ListPlaylists_ext s s' deviceID sch :
  select_device deviceID (sqlite.db s) = select_device deviceID (sqlite.db s') ->
  select_playlists deviceID (sqlite.db s)
  = select_playlists deviceID (sqlite.db s') ->
  sqlite.ListPlaylists s deviceID sch = sqlite.ListPlaylists s' deviceID sch.
Proof.
  intros Hd Hp. unfold sqlite.ListPlaylists, scan_device_check.
  rewrite Hd, Hp. reflexivity.
Qed.

(** X8. A call that names one device changes nothing of what
    [ListPlaylists] returns for any other identifier, whatever the faults
    of either call: same list or same error. *)
Theorem calls_leave_other_devices
  (c : call) (now : Z) (s : sqlite.Store) (sch : schedule)
  (other : string) (sch' : schedule) :
  call_device c <> other ->
  run (sqlite.ListPlaylists (run (perform c now s) sch) other) sch'
  = run (sqlite.ListPlaylists s other) sch'.
Proof.
  intros Hother. unfold run at 1 3. f_equal.
  apply ListPlaylists_ext.
  - destruct (perform_tables c now s sch) as [Hdev _].
    unfold select_device.
    destruct Hdev as [-> | (dt & Hdt & [-> | (deviceID & -> & _ & ->)])];
      rewrite ?Hdt; auto.
    rewrite has_device_app. cbn in Hother.
    apply String.eqb_neq in Hother. cbn. rewrite Hother, orb_false_r.
    reflexivity.
  - destruct (perform_tables c now s sch) as [_ Hpl].
    unfold select_playlists.
    destruct Hpl as [-> | (pt & D & name & url & -> & Hpt & _ & ->)];
      rewrite ?Hpt; auto.
    cbn. rewrite filter_app. cbn. unfold of_device at 2. cbn.
    cbn in Hother. apply String.eqb_neq in Hother. rewrite Hother.
    rewrite app_nil_r. reflexivity.
Qed.

Lemma calls_leave_other_devices_witness :
  call_device (AttachPlaylist "device-123" "My playlist"
                 "https://example.com/channel.m3u8") <> "device-999"
  /\ run (sqlite.ListPlaylists
            (run (perform (AttachPlaylist "device-123" "My playlist"
                             "https://example.com/channel.m3u8") 20
                    demo_store) [])
            "device-999") []
     = (None, Some ErrDeviceNotFound).
Proof.
  assert (Hne : call_device (AttachPlaylist "device-123" "My playlist"
                               "https://example.com/channel.m3u8")
                <> "device-999") by discriminate.
  split; [exact Hne|].
  rewrite (calls_leave_other_devices _ 20 demo_store [] "device-999" [] Hne).
  reflexivity.
Defined.

(** X9. Registration turns "not found" into "empty": in a store with
    referential integrity and with no fault, [ListPlaylists] on an
    unregistered identifier returns [ErrDeviceNotFound], and right after
    [CreateDevice] for it the same call returns an empty, non-nil slice. *)
Theorem register_then_list
  (s : sqlite.Store) (now : Z) (deviceID : string) (sch : schedule) :
  schema_ready (sqlite.db s) = true ->
  foreign_keys_ok (sqlite.db s) = true ->
  registered deviceID (sqlite.db s) = false ->
  quiet sch = true ->
  run (sqlite.ListPlaylists s deviceID) sch = (None, Some ErrDeviceNotFound)
  /\ run (' (s1, _) <- sqlite.CreateDevice s now deviceID ;;
          sqlite.ListPlaylists s1 deviceID) sch
     = (Some [], None).
Proof.
  intros Hready Hfk Hreg Hq. split.
  { apply ListPlaylists_unregistered; auto using quiet_firstn. }
  destruct (schema_ready_tables _ Hready) as (dt & pt & Hd & Hp).
  pose proof Hreg as Hhas. unfold registered in Hhas. rewrite Hd in Hhas.
  pose proof (CreateDevice_quiet_new s now deviceID dt sch Hd Hhas Hq) as H1.
  pose proof (CreateDevice_keeps_quiet s now deviceID sch Hq) as Hq1.
  pose proof (unregistered_owns_nothing _ _ Hfk Hreg) as Hnone.
  unfold run in *. unfold bind.
  destruct (sqlite.CreateDevice s now deviceID sch) as [[s1 r1] sch1].
  cbn [fst snd] in *. injection H1 as -> _.
  match goal with
  | |- fst (sqlite.ListPlaylists ?st deviceID sch1) = _ =>
      pose proof (ListPlaylists_quiet st deviceID sch1) as Hlist
  end.
  unfold run in Hlist. rewrite Hlist; auto.
  - unfold playlists_of, playlist_rows in *. cbn. rewrite Hnone. reflexivity.
  - unfold schema_ready. cbn. rewrite Hp. reflexivity.
  - unfold registered. cbn [sqlite.db devices].
    rewrite has_device_app, String.eqb_refl. apply orb_true_r.
Qed.

Lemma register_then_list_witness :
  schema_ready (sqlite.db demo_store) = true
  /\ foreign_keys_ok (sqlite.db demo_store) = true
  /\ registered "device-456" (sqlite.db demo_store) = false
  /\ quiet [] = true
  /\ run (' (s1, _) <- sqlite.CreateDevice demo_store 30 "device-456" ;;
          sqlite.ListPlaylists s1 "device-456") []
     = (Some [], None).
Proof.
  repeat (split; [reflexivity|]).
  destruct (register_then_list demo_store 30 "device-456" [])
    as [_ Hafter]; [reflexivity | reflexivity | reflexivity | reflexivity |].
  exact Hafter.
Defined.

(** ** Opening a location *)

Lemma New_store_ready d sch d' st err :
  run (sqlite.New d) sch = (d', (Some st, err)) ->
  err = None /\ sqlite.db st = d' /\ schema_ready d' = true.
Proof.
  unfold run, sqlite.New, sqlite.migrate, run_statement, bind, ret.
  repeat (next_call; cbn); intros [= <- <- <-]; repeat split;
    apply create_tables_ready.
Qed.

(** X10. [New] hands out a store only with a nil error, and only on a
    database that has both tables: the store's database is what the call
    left at the location, and it holds the rows the location held. *)
Theorem New_store_on_migrated_schema
  (d : database) (sch : schedule) (d' : database) (st : sqlite.Store)
  (err : option error) :
  run (sqlite.New d) sch = (d', (Some st, err)) ->
  err = None
  /\ sqlite.db st = d'
  /\ schema_ready d' = true
  /\ device_rows d' = device_rows d
  /\ playlist_rows d' = playlist_rows d.
Proof.
  intros Hrun.
  destruct (New_rows d sch) as [Hdev Hpl]. rewrite Hrun in Hdev, Hpl.
  cbn [fst] in Hdev, Hpl.
  destruct (New_store_ready _ _ _ _ _ Hrun)
    as (Herr & Hdb & Hready).
  repeat split; assumption.
Qed.

Lemma New_store_on_migrated_schema_witness :
  run (sqlite.New empty_database) [None; None]
  = (sqlite.db fresh_store, (Some fresh_store, None))
  /\ schema_ready (sqlite.db fresh_store) = true.
Proof.
  split; [reflexivity|].
  destruct (New_store_on_migrated_schema empty_database [None; None]
              (sqlite.db fresh_store) fresh_store None eq_refl)
    as (_ & _ & Hready & _).
  exact Hready.
Defined.

(** X11. [New] returns neither a store nor an error exactly when one of the
    two statements of [migrate] fails and [db.Close()] then succeeds: the
    error of [migrate] is never reported.  The location keeps what the
    statements before the failure made of it. *)
Theorem New_nil_without_error
  (d : database) (sch : schedule) (d' : database) :
  run (sqlite.New d) sch = (d', (None, None))
  <-> exists code tail,
        (tail = [] \/ exists rest, tail = None :: rest)
        /\ ((sch = None :: None :: Some code :: tail /\ d' = d)
            \/ (sch = None :: None :: None :: Some code :: tail
                /\ d' = create_devices_table d)).
Proof.
  unfold run, sqlite.New, sqlite.migrate, run_statement, bind, ret. split.
  - repeat (next_call; cbn); intros [= <-]; eauto 10.
  - intros (code & tail & Htail & [[-> ->] | [-> ->]]);
      destruct Htail as [-> | (rest & ->)]; reflexivity.
Qed.

(** X12. When [main] serves with a store, the store is on the migrated
    database that [sqlite.New] left in the file named by
    [SCIPLAYER_DB_PATH] (or ["data/sciplayer.db"] when that is unset or
    empty) and the address is [SCIPLAYER_HTTP_ADDR], or [":8090"] when that
    is unset or empty; and when a statement of [migrate] fails and
    [db.Close()] succeeds, [main] does not stop: it goes on to serve with a
    nil store. *)
Theorem main_start_up
  (Getenv : string -> string) (file : string -> database) (sch : schedule) :
  (forall addr st,
      snd (run (main.main Getenv file) sch)
      = main.ListenAndServe addr (Some st) ->
      addr = main.envOrDefault Getenv "SCIPLAYER_HTTP_ADDR" ":8090"
      /\ fst (run (main.main Getenv file) sch) = sqlite.db st
      /\ schema_ready (sqlite.db st) = true
      /\ run (sqlite.New
                (file (main.envOrDefault Getenv "SCIPLAYER_DB_PATH"
                         "data/sciplayer.db"))) sch
         = (sqlite.db st, (Some st, None)))
  /\ (forall code tail,
         tail = [] \/ (exists rest, tail = None :: rest) ->
         sch = None :: None :: Some code :: tail
         \/ sch = None :: None :: None :: Some code :: tail ->
         snd (run (main.main Getenv file) sch)
         = main.ListenAndServe
             (main.envOrDefault Getenv "SCIPLAYER_HTTP_ADDR" ":8090") None).
Proof.
  set (dbPath := main.envOrDefault Getenv "SCIPLAYER_DB_PATH"
                   "data/sciplayer.db").
  set (addr0 := main.envOrDefault Getenv "SCIPLAYER_HTTP_ADDR" ":8090").
  unfold run at 1 2 4, main.main, bind. fold dbPath addr0.
  destruct (sqlite.New (file dbPath) sch) as [[d' [st err]] sch'] eqn:HNew.
  assert (Hrun : run (sqlite.New (file dbPath)) sch = (d', (st, err))).
  { unfold run. rewrite HNew. reflexivity. }
  split.
  - intros addr st' Hserve.
    destruct err as [e|]; cbn in Hserve; [discriminate|].
    injection Hserve as <- ->. cbn.
    destruct (New_store_ready _ _ _ _ _ Hrun) as (_ & Hdb & Hready).
    subst d'. rewrite Hrun. auto.
  - intros code tail Htail Hsch.
    assert (Hnil : exists d0, run (sqlite.New (file dbPath)) sch
                              = (d0, (None, None))).
    { unfold run, sqlite.New, sqlite.migrate, run_statement, bind, ret.
      destruct Hsch as [-> | ->]; destruct Htail as [-> | (rest & ->)];
        cbn; eauto. }
    destruct Hnil as (d0 & Hnil). rewrite Hnil in Hrun.
    injection Hrun as <- <- <-. reflexivity.
Qed.

(** * Properties of the request adapter *)

(** ** Paths *)

Lemma strip_append prefix s :
  strings.strip prefix (prefix ++ s)%string = Some s.
Proof.
  induction prefix as [|c p IH]; simpl; auto.
  rewrite Ascii.eqb_refl. exact IH.
Qed.

Lemma TrimPrefix_append prefix s :
  strings.TrimPrefix (prefix ++ s)%string prefix = s.
Proof. unfold strings.TrimPrefix. rewrite strip_append. reflexivity. Qed.

Lemma Split_nonempty s sep : strings.Split s sep <> [].
Proof.
  induction s as [|c rest IH]; simpl; [discriminate|].
  destruct (Ascii.eqb c sep); [discriminate|].
  destruct (strings.Split rest sep); discriminate.
Qed.

(** A piece that holds no separator is split off whole. *)
Lemma Split_segment piece tail :
  no_slash piece = true ->
  strings.Split (piece ++ String strings.slash tail)%string strings.slash
  = piece :: strings.Split tail strings.slash.
Proof.
  induction piece as [|c rest IH]; simpl; intros Hno.
  - reflexivity.
  - apply andb_true_iff in Hno. destruct Hno as [Hc Hrest].
    apply negb_true_iff in Hc. rewrite Hc, (IH Hrest). reflexivity.
Qed.

Lemma Split_last piece :
  no_slash piece = true ->
  strings.Split piece strings.slash = [piece].
Proof.
  induction piece as [|c rest IH]; simpl; intros Hno.
  - reflexivity.
  - apply andb_true_iff in Hno. destruct Hno as [Hc Hrest].
    apply negb_true_iff in Hc. rewrite Hc, (IH Hrest). reflexivity.
Qed.

(** The pieces of a path that begins with a piece free of separators. *)
Lemma Split_head piece tail :
  no_slash piece = true -> segment_end tail ->
  exists others,
    strings.Split (piece ++ tail)%string strings.slash = piece :: others
    /\ (tail = EmptyString -> others = []).
Proof.
  intros Hno [-> | (t & ->)].
  - exists [].
    assert (Happ : (piece ++ "")%string = piece).
    { clear Hno. induction piece as [|c rest IH]; simpl; congruence. }
    rewrite Happ. split; [apply Split_last, Hno | reflexivity].
  - exists (strings.Split t strings.slash).
    rewrite (Split_segment piece t Hno). split; [reflexivity | discriminate].
Qed.

Section Routing.

Variable TrimSpace : string -> string.
Variable url_Parse : string -> error + url.URL.
Variable decodeDevice : string -> option routes.deviceRequest.
Variable decodePlaylist : string -> option api.playlistRequest.

Context {S : Type} `{store.Store S}.

(** X13. [handleDeviceSubroutes] on a path under ["/devices/"]: with a
    first segment that is not empty and a second segment ["playlists"] it
    hands the request to [handlePlaylists] with the first segment as device
    identifier, and whatever follows the second segment is ignored; without
    a second segment, with another second segment or with an empty first
    segment it answers 404 and leaves the store alone. *)
Theorem device_routes
  (a : S) (now : Z) (r : routes.Request) (deviceID : string) :
  deviceID <> "" ->
  no_slash deviceID = true ->
  (forall tail,
      segment_end tail ->
      routes.Path r = ("/devices/" ++ deviceID ++ "/playlists" ++ tail)%string ->
      routes.handleDeviceSubroutes TrimSpace url_Parse decodePlaylist a now r
      = routes.handlePlaylists TrimSpace url_Parse decodePlaylist a now r
          deviceID)
  /\ (routes.Path r = ("/devices/" ++ deviceID)%string ->
      routes.handleDeviceSubroutes TrimSpace url_Parse decodePlaylist a now r
      = ret (a, routes.NotFound))
  /\ (forall segment tail,
         no_slash segment = true -> segment <> "playlists" ->
         segment_end tail ->
         routes.Path r
         = ("/devices/" ++ deviceID ++ "/" ++ segment ++ tail)%string ->
         routes.handleDeviceSubroutes TrimSpace url_Parse decodePlaylist a now r
         = ret (a, routes.NotFound))
  /\ (forall tail,
         segment_end tail ->
         routes.Path r = ("/devices/" ++ tail)%string ->
         routes.handleDeviceSubroutes TrimSpace url_Parse decodePlaylist a now r
         = ret (a, routes.NotFound)).
Proof.
  intros Hid Hno. apply String.eqb_neq in Hid.
  unfold routes.handleDeviceSubroutes. repeat split.
  - intros tail Htail ->. rewrite TrimPrefix_append.
    change ("/playlists" ++ tail)%string
      with (String strings.slash ("playlists" ++ tail)%string).
    rewrite (Split_segment deviceID _ Hno), Hid.
    destruct (Split_head "playlists" tail eq_refl Htail) as (others & -> & _).
    reflexivity.
  - intros ->. rewrite TrimPrefix_append, (Split_last deviceID Hno), Hid.
    reflexivity.
  - intros segment tail Hseg Hother Htail ->. rewrite TrimPrefix_append.
    change ("/" ++ segment ++ tail)%string
      with (String strings.slash (segment ++ tail)%string).
    rewrite (Split_segment deviceID _ Hno), Hid.
    destruct (Split_head segment tail Hseg Htail) as (others & -> & _).
    apply String.eqb_neq in Hother. rewrite Hother. reflexivity.
  - intros tail Htail ->. rewrite TrimPrefix_append.
    destruct (Split_head "" tail eq_refl Htail) as (others & Hsplit & _).
    cbn in Hsplit. rewrite Hsplit. reflexivity.
Qed.

(** X14. A request whose method a handler does not serve never reaches
    the store, whatever the store is: [handleDevices] answers any method
    but POST with 405 and [Allow: POST]; [handlePlaylists] answers any
    method but POST and GET with 405 and [Allow: POST, GET]; and for such
    a method [handleDeviceSubroutes] answers 404 or that 405, by the path.
    In each case the handler returns the store it was given and makes no
    call to it (the schedule is not consumed). *)
Theorem unserved_methods_skip_store
  (a : S) (now : Z) (r : routes.Request) (sch : schedule) :
  routes.Method r <> "POST" ->
  routes.handleDevices TrimSpace decodeDevice a now r sch
  = (a, {| routes.Allow := Some "POST";
           routes.Status := 405;
           routes.Content :=
             routes.Simple (api.JSON [("error", "method not allowed")]) |},
     sch)
  /\ (routes.Method r <> "GET" ->
      (forall deviceID,
          routes.handlePlaylists TrimSpace url_Parse decodePlaylist
            a now r deviceID sch
          = (a, {| routes.Allow := Some "POST, GET";
                   routes.Status := 405;
                   routes.Content :=
                     routes.Simple
                       (api.JSON [("error", "method not allowed")]) |},
             sch))
      /\ exists answer,
          routes.handleDeviceSubroutes TrimSpace url_Parse decodePlaylist
            a now r sch = (a, answer, sch)
          /\ (answer = routes.NotFound
              \/ answer = routes.methodNotAllowed ["POST"; "GET"])).
Proof.
  intros Hpost. apply String.eqb_neq in Hpost. split.
  - unfold routes.handleDevices, routes.MethodPost. rewrite Hpost.
    reflexivity.
  - intros Hget. apply String.eqb_neq in Hget.
    assert (Hplaylists : forall deviceID,
               routes.handlePlaylists TrimSpace url_Parse decodePlaylist
                 a now r deviceID sch
               = (a, routes.methodNotAllowed ["POST"; "GET"], sch)).
    { intros deviceID.
      unfold routes.handlePlaylists, routes.MethodPost, routes.MethodGet.
      rewrite Hpost, Hget. reflexivity. }
    split; [exact Hplaylists|].
    unfold routes.handleDeviceSubroutes.
    destruct (strings.Split _ _) as [|deviceID [|segment others]];
      try (eexists; split; [reflexivity | auto]);
      destruct (String.eqb deviceID "");
      try (eexists; split; [reflexivity | auto]).
    destruct (String.eqb segment "playlists").
    + eexists. split; [apply Hplaylists | auto].
    + eexists. split; [reflexivity | auto].
Qed.

(** X16. [createDevice] answers 400 exactly when the body does not decode
    or the trimmed [deviceId] is empty, and then it returns the store it
    was given and makes no call to it (the schedule is not consumed). *)
Theorem createDevice_bad_request_iff
  (a : S) (now : Z) (r : routes.Request) (sch : schedule) :
  (routes.Status (snd (run (routes.createDevice TrimSpace decodeDevice
                              a now r) sch)) = 400
   <-> (decodeDevice (routes.Body r) = None
        \/ exists req,
            decodeDevice (routes.Body r) = Some req
            /\ TrimSpace (routes.DeviceID req) = ""))
  /\ (routes.Status (snd (run (routes.createDevice TrimSpace decodeDevice
                                 a now r) sch)) = 400 ->
      routes.createDevice TrimSpace decodeDevice a now r sch
      = (a, snd (run (routes.createDevice TrimSpace decodeDevice a now r) sch),
         sch)).
Proof.
  unfold run, routes.createDevice.
  destruct (decodeDevice (routes.Body r)) as [req|] eqn:Hdec.
  - destruct (String.eqb_spec (TrimSpace (routes.DeviceID req)) "") as [E|E].
    + cbn. split; [|reflexivity]. split; eauto.
    + unfold bind.
      destruct (store.CreateDevice a now (TrimSpace (routes.DeviceID req)) sch)
        as [[a' [created [e|]]] sch']; cbn.
      * split; [|discriminate]. split; [discriminate|].
        intros [Hnone | (req' & [= <-] & Hempty)]; congruence.
      * split.
        -- split; [destruct created; discriminate|].
           intros [Hnone | (req' & [= <-] & Hempty)]; congruence.
        -- destruct created; discriminate.
  - cbn. split; [|reflexivity]. split; auto.
Qed.

End Routing.

Lemma device_routes_witness :
  "device-123" <> ""
  /\ no_slash "device-123" = true
  /\ routes.handleDeviceSubroutes (fun x => x)
       (fun _ => inl (ErrorsNew "parse")) (fun _ => None) demo_store 20
       (routes.mk_Request "GET" "/devices/device-123/playlists/extra/more" "")
     = routes.handlePlaylists (fun x => x)
         (fun _ => inl (ErrorsNew "parse")) (fun _ => None) demo_store 20
         (routes.mk_Request "GET" "/devices/device-123/playlists/extra/more" "")
         "device-123".
Proof.
  assert (Hid : "device-123" <> "") by discriminate.
  split; [exact Hid|]. split; [reflexivity|].
  destruct (device_routes (fun x => x) (fun _ => inl (ErrorsNew "parse"))
              (fun _ => None) demo_store 20
              (routes.mk_Request "GET"
                 "/devices/device-123/playlists/extra/more" "")
              "device-123" Hid eq_refl) as (Hroute & _).
  apply (Hroute "/extra/more").
  - right. exists "extra/more". reflexivity.
  - reflexivity.
Defined.

Lemma unserved_methods_skip_store_witness :
  routes.Method (routes.mk_Request "PUT" "/devices/device-123/playlists" "")
  <> "POST"
  /\ routes.handleDevices (fun x => x) (fun _ => None) demo_store 20
       (routes.mk_Request "PUT" "/devices/device-123/playlists" "")
       [Some 2%nat]
     = (demo_store,
        {| routes.Allow := Some "POST";
           routes.Status := 405;
           routes.Content :=
             routes.Simple (api.JSON [("error", "method not allowed")]) |},
        [Some 2%nat]).
Proof.
  assert (Hm : routes.Method
                 (routes.mk_Request "PUT" "/devices/device-123/playlists" "")
               <> "POST") by discriminate.
  split; [exact Hm|].
  destruct (unserved_methods_skip_store (fun x => x)
              (fun _ => inl (ErrorsNew "parse")) (fun _ => None)
              (fun _ => None) demo_store 20
              (routes.mk_Request "PUT" "/devices/device-123/playlists" "")
              [Some 2%nat] Hm) as (Hdevices & _).
  exact Hdevices.
Defined.

(** ** The handlers on the SQLite store *)

(** X15. POST /devices is idempotent on the SQLite store: with no fault,
    for a body whose trimmed [deviceId] is not empty and not yet
    registered, the first request answers 201 with [created] true, the
    same request again answers 200 with [created] false, both carry the
    trimmed identifier, and the second adds no device row. *)
Theorem POST_devices_twice
  (TrimSpace : string -> string)
  (decodeDevice : string -> option routes.deviceRequest)
  (s : sqlite.Store) (now1 now2 : Z) (r : routes.Request)
  (req : routes.deviceRequest) (sch : schedule) :
  routes.Method r = "POST" ->
  decodeDevice (routes.Body r) = Some req ->
  TrimSpace (routes.DeviceID req) <> "" ->
  schema_ready (sqlite.db s) = true ->
  registered (TrimSpace (routes.DeviceID req)) (sqlite.db s) = false ->
  quiet sch = true ->
  exists s1 s2,
    run (' (s1, r1) <- routes.handleDevices TrimSpace decodeDevice s now1 r ;;
         ' (s2, r2) <- routes.handleDevices TrimSpace decodeDevice s1 now2 r ;;
         ret (s1, s2, r1, r2)) sch
    = (s1, s2,
       {| routes.Allow := None; routes.Status := 201;
          routes.Content :=
            routes.DeviceObject (TrimSpace (routes.DeviceID req)) true |},
       {| routes.Allow := None; routes.Status := 200;
          routes.Content :=
            routes.DeviceObject (TrimSpace (routes.DeviceID req)) false |})
    /\ registered (TrimSpace (routes.DeviceID req)) (sqlite.db s1) = true
    /\ device_rows (sqlite.db s2) = device_rows (sqlite.db s1).
Proof.
  intros Hpost Hdec Hid Hready Hreg Hq.
  set (deviceID := TrimSpace (routes.DeviceID req)) in *.
  apply String.eqb_neq in Hid.
  destruct (schema_ready_tables _ Hready) as (dt & pt & Hd & Hp).
  unfold registered in Hreg. rewrite Hd in Hreg.
  pose proof (CreateDevice_quiet_new s now1 deviceID dt sch Hd Hreg Hq) as H1.
  pose proof (CreateDevice_keeps_quiet s now1 deviceID sch Hq) as Hq1.
  unfold run, routes.handleDevices, routes.createDevice, routes.MethodPost.
  rewrite Hpost, Hdec, String.eqb_refl.
  fold deviceID. rewrite Hid. unfold bind at 1 2.
  change (store.CreateDevice s now1 deviceID sch)
    with (sqlite.CreateDevice s now1 deviceID sch).
  unfold run in H1.
  destruct (sqlite.CreateDevice s now1 deviceID sch) as [[s1 r1] sch1].
  cbn [fst snd] in *. injection H1 as -> ->.
  set (dt1 := {| rows := rows dt ++
                         [mk_device_row (new_rowid dev_id dt) deviceID now1];
                 seq := new_rowid dev_id dt |}).
  assert (Hhas1 : has_device deviceID dt1 = true).
  { unfold dt1. rewrite has_device_app, String.eqb_refl. apply orb_true_r. }
  match goal with
  | |- context [{| sqlite.db := ?d1 |}] => set (s1 := {| sqlite.db := d1 |})
  end.
  pose proof (CreateDevice_quiet_known s1 now2 deviceID dt1 sch1
                eq_refl Hhas1 Hq1) as H2.
  unfold run in H2. cbn [ret]. unfold bind.
  change (store.CreateDevice s1 now2 deviceID sch1)
    with (sqlite.CreateDevice s1 now2 deviceID sch1).
  destruct (sqlite.CreateDevice s1 now2 deviceID sch1) as [[s2 r2] sch2].
  cbn [fst] in H2. injection H2 as -> ->.
  eexists. eexists. split; [reflexivity|]. split.
  - unfold registered, s1. cbn [sqlite.db devices]. exact Hhas1.
  - reflexivity.
Qed.

Lemma POST_devices_twice_witness :
  quiet [] = true
  /\ registered "device-456" (sqlite.db demo_store) = false
  /\ exists s1 s2,
       run (' (s1, r1) <- routes.handleDevices (fun x => x)
                            (fun b => Some (routes.mk_deviceRequest b))
                            demo_store 30
                            (routes.mk_Request "POST" "/devices" "device-456") ;;
            ' (s2, r2) <- routes.handleDevices (fun x => x)
                            (fun b => Some (routes.mk_deviceRequest b))
                            s1 31
                            (routes.mk_Request "POST" "/devices" "device-456") ;;
            ret (s1, s2, r1, r2)) []
       = (s1, s2,
          {| routes.Allow := None; routes.Status := 201;
             routes.Content := routes.DeviceObject "device-456" true |},
          {| routes.Allow := None; routes.Status := 200;
             routes.Content := routes.DeviceObject "device-456" false |}).
Proof.
  repeat (split; [reflexivity|]).
  destruct (POST_devices_twice (fun x => x)
              (fun b => Some (routes.mk_deviceRequest b))
              demo_store 30 31
              (routes.mk_Request "POST" "/devices" "device-456")
              (routes.mk_deviceRequest "device-456") [])
    as (s1 & s2 & Hrun & _); try reflexivity; try discriminate.
  exists s1, s2. exact Hrun.
Defined.

(** X17. GET playlists on the SQLite store answers 200, 404 or 500 and
    nothing else.  A 200 carries one entry per playlist row of the device,
    all of them, in the order of the query, and the device is registered; a
    404 is given only for an identifier that is not registered; with no
    fault on an opened store the answer is 200 for a registered identifier
    and 404 for any other. *)
Theorem GET_playlists
  (s : sqlite.Store) (deviceID : string) (sch : schedule) :
  (routes.Status (run (routes.listPlaylists s deviceID) sch) = 200
   \/ routes.Status (run (routes.listPlaylists s deviceID) sch) = 404
   \/ routes.Status (run (routes.listPlaylists s deviceID) sch) = 500)
  /\ (routes.Status (run (routes.listPlaylists s deviceID) sch) = 200 ->
      registered deviceID (sqlite.db s) = true
      /\ routes.Content (run (routes.listPlaylists s deviceID) sch)
         = routes.PlaylistArray
             (map (fun row => routes.mk_playlistResponse
                                (pl_name row) (pl_url row) (pl_created_at row))
                  (order_by_created_at_id
                     (playlists_of deviceID (sqlite.db s)))))
  /\ (routes.Status (run (routes.listPlaylists s deviceID) sch) = 404 ->
      registered deviceID (sqlite.db s) = false)
  /\ (schema_ready (sqlite.db s) = true -> quiet sch = true ->
      routes.Status (run (routes.listPlaylists s deviceID) sch)
      = if registered deviceID (sqlite.db s) then 200 else 404).
Proof.
  assert (Hcases :
    (run (routes.listPlaylists s deviceID) sch
     = {| routes.Allow := None; routes.Status := 200;
          routes.Content :=
            routes.PlaylistArray
              (map (fun row => routes.mk_playlistResponse
                                 (pl_name row) (pl_url row) (pl_created_at row))
                   (order_by_created_at_id
                      (playlists_of deviceID (sqlite.db s)))) |}
     /\ registered deviceID (sqlite.db s) = true)
    \/ (routes.Status (run (routes.listPlaylists s deviceID) sch) = 404
        /\ registered deviceID (sqlite.db s) = false)
    \/ routes.Status (run (routes.listPlaylists s deviceID) sch) = 500).
  { unfold run, routes.listPlaylists, bind.
    change (store.ListPlaylists s deviceID sch)
      with (sqlite.ListPlaylists s deviceID sch).
    destruct (ListPlaylists_outcomes s deviceID sch)
      as [[Hrun Hreg] | (e & Hrun & Hnot)]; unfold run in Hrun;
      destruct (sqlite.ListPlaylists s deviceID sch) as [[l err] sch'];
      cbn [fst] in Hrun; injection Hrun as -> ->.
    - left. split; [|exact Hreg]. cbn. rewrite map_map. reflexivity.
    - destruct (errors_Is e ErrDeviceNotFound) eqn:His; cbn; auto.
      right. left. split; [reflexivity|].
      rewrite registered_select_device, (Hnot eq_refl). reflexivity. }
  split; [|split; [|split]].
  - destruct Hcases as [[-> _] | [[-> _] | ->]]; auto.
  - intros H200. destruct Hcases as [[-> Hreg] | [[H404 _] | H500]];
      [auto | congruence | congruence].
  - intros H404. destruct Hcases as [[Hrun _] | [[_ Hreg] | H500]];
      [rewrite Hrun in H404; discriminate | exact Hreg | congruence].
  - intros Hready Hq. unfold run, routes.listPlaylists, bind.
    change (store.ListPlaylists s deviceID sch)
      with (sqlite.ListPlaylists s deviceID sch).
    destruct (registered deviceID (sqlite.db s)) eqn:Hreg.
    + pose proof (ListPlaylists_quiet s deviceID sch Hready Hreg Hq) as Hrun.
      unfold run in Hrun.
      destruct (sqlite.ListPlaylists s deviceID sch) as [[l err] sch'].
      cbn [fst] in Hrun. injection Hrun as -> ->. reflexivity.
    + pose proof (ListPlaylists_unregistered s deviceID sch Hready Hreg
                    (quiet_firstn 1 sch Hq)) as Hrun.
      unfold run in Hrun.
      destruct (sqlite.ListPlaylists s deviceID sch) as [[l err] sch'].
      cbn [fst] in Hrun. injection Hrun as -> ->. reflexivity.
Qed.

(** X18. POST playlists on the SQLite store, under every schedule of
    faults: a 201 means that exactly one row was appended to [playlists],
    for a registered device, holding the trimmed name and the trimmed URL,
    both not empty and the URL accepted by [validateURL]; any other status
    means the store is the one the request found; and a 404 is given only
    for an identifier that is not registered. *)
Theorem POST_playlists
  (TrimSpace : string -> string) (url_Parse : string -> error + url.URL)
  (s : sqlite.Store) (now : Z) (deviceID : string)
  (decoded : option api.playlistRequest) (sch : schedule) :
  (api.status (snd (run (api.addPlaylist TrimSpace url_Parse s now deviceID
                           decoded) sch)) = 201 ->
   exists req pt,
     decoded = Some req
     /\ TrimSpace (api.Name req) <> ""
     /\ TrimSpace (api.URL req) <> ""
     /\ api.validateURL url_Parse (TrimSpace (api.URL req)) = None
     /\ registered deviceID (sqlite.db s) = true
     /\ playlists (sqlite.db s) = Some pt
     /\ playlist_rows
          (sqlite.db (fst (run (api.addPlaylist TrimSpace url_Parse s now
                                  deviceID decoded) sch)))
        = rows pt ++
          [mk_playlist_row (new_rowid pl_id pt) deviceID
             (TrimSpace (api.Name req)) (TrimSpace (api.URL req)) now])
  /\ (api.status (snd (run (api.addPlaylist TrimSpace url_Parse s now deviceID
                              decoded) sch)) <> 201 ->
      fst (run (api.addPlaylist TrimSpace url_Parse s now deviceID decoded)
               sch) = s)
  /\ (api.status (snd (run (api.addPlaylist TrimSpace url_Parse s now deviceID
                              decoded) sch)) = 404 ->
      registered deviceID (sqlite.db s) = false).
Proof.
  unfold run, api.addPlaylist.
  destruct decoded as [req|]; cbn;
    [|repeat split; intros; (discriminate || reflexivity)].
  destruct (String.eqb_spec (TrimSpace (api.Name req)) "") as [En|En]; cbn;
    [repeat split; intros; (discriminate || reflexivity)|].
  destruct (String.eqb_spec (TrimSpace (api.URL req)) "") as [Eu|Eu]; cbn;
    [repeat split; intros; (discriminate || reflexivity)|].
  destruct (api.validateURL url_Parse (TrimSpace (api.URL req))) as [ev|]
    eqn:Hval; cbn;
    [repeat split; intros; (discriminate || reflexivity)|].
  unfold bind.
  change (store.AddPlaylist s now deviceID (TrimSpace (api.Name req))
            (TrimSpace (api.URL req)) sch)
    with (sqlite.AddPlaylist s now deviceID (TrimSpace (api.Name req))
            (TrimSpace (api.URL req)) sch).
  pose proof (AddPlaylist_not_found_unregistered s now deviceID
                (TrimSpace (api.Name req)) (TrimSpace (api.URL req)) sch)
    as Hsound.
  destruct (AddPlaylist_outcomes s now deviceID (TrimSpace (api.Name req))
              (TrimSpace (api.URL req)) sch)
    as [(e & Hrun) | (d' & Hins & Hreg & Hrun)];
    unfold run in Hrun, Hsound;
    destruct (sqlite.AddPlaylist s now deviceID (TrimSpace (api.Name req))
                (TrimSpace (api.URL req)) sch) as [[s' err] sch'];
    cbn [fst snd] in *; injection Hrun as -> ->.
  - specialize (Hsound e eq_refl).
    destruct (errors_Is e ErrDeviceNotFound); cbn;
      repeat split; intros; (discriminate || auto).
  - destruct (insert_playlist_inr _ _ _ _ _ _ Hins) as (pt & Hp & _ & ->).
    cbn. split; [|split].
    + intros _. exists req, pt. repeat split; auto.
    + intros Hother. exfalso. apply Hother. reflexivity.
    + intros Hmissing. discriminate Hmissing.
Qed.

Lemma POST_playlists_witness :
  api.status
    (snd (run (api.addPlaylist (fun x => x)
                 (fun _ => inr (url.mk_URL "https" "example.com"))
                 demo_store 20 "device-123"
                 (Some (api.mk_playlistRequest "My playlist"
                          "https://example.com/channel.m3u8"))) [])) = 201
  /\ registered "device-123" (sqlite.db demo_store) = true.
Proof.
  split; [reflexivity|].
  destruct (POST_playlists (fun x => x)
              (fun _ => inr (url.mk_URL "https" "example.com"))
              demo_store 20 "device-123"
              (Some (api.mk_playlistRequest "My playlist"
                       "https://example.com/channel.m3u8")) [])
    as (Hcreated & _).
  destruct (Hcreated eq_refl) as (req & pt & _ & _ & _ & _ & Hreg & _).
  exact Hreg.
Defined.
